(** * XXMI Launcher: the model-importer package

    A shallow embedding of [core/packages/model_importers/model_importer.py]:
    the [ModelImporterPackage] base class with its path validation, the
    projection of the [d3dx_ini] settings table onto the INI document, the
    backup and restore of [d3dx.ini], the install sequence and the
    start-game sequence.

    Python methods become computations in a state-and-exception monad over
    an explicit state (configuration, file system, the package's
    [backups_path] and the list of effects performed so far).  The event
    bus, pathlib's reading and printing of paths, the INI text format, the
    inherited [move_contents] and the methods a game integration overrides
    are parameters.  Of [load], the subscriptions and what it inherits
    are a parameter too; [unload] and [create_shortcut] only wire the
    package to the event bus and the desktop and are left out. *)

From Stdlib Require Import ZArith Ascii.
From stdpp Require Import base option list strings gmap pretty.

Open Scope string_scope.
Open Scope list_scope.

(** ** Python values and exceptions *)

(** The scalars of the configuration: [None], booleans, strings and
    integers.  (Float literals are handled by the code exactly like
    integers and are left out.) *)
Inductive scalar :=
| SNone
| SBool (b : bool)
| SStr (s : string)
| SInt (z : Z).

#[global] Instance scalar_eq_dec : EqDecision scalar.
Proof. solve_decision. Defined.

(** [bool(v)] *)
Definition truthy (v : scalar) : bool :=
  match v with
  | SNone => false
  | SBool b => b
  | SStr s => negb (String.eqb s "")
  | SInt z => negb (Z.eqb z 0)
  end.

(** [str(v)] *)
Definition py_str (v : scalar) : string :=
  match v with
  | SNone => "None"
  | SBool true => "True"
  | SBool false => "False"
  | SStr s => s
  | SInt z => pretty z
  end.

(** One entry of the [d3dx_ini] table below the option level: a literal, or
    a dictionary from a discriminator to a literal.  A dictionary keeps its
    insertion order, so it is an association list. *)
Inductive ini_value :=
| Lit (v : scalar)
| Sub (d : list (string * scalar)).

#[global] Instance ini_value_eq_dec : EqDecision ini_value.
Proof. solve_decision. Defined.

(** [d.get(k)] on an insertion-ordered dictionary with string keys. *)
Fixpoint dict_get {V : Type} (k : string) (d : list (string * V)) : option V :=
  match d with
  | [] => None
  | (k', v) :: rest => if String.eqb k' k then Some v else dict_get k rest
  end.

(** ** Paths (pathlib) *)

Module PathLib.

(** A [pathlib.Path] by its parts: drive, root and the segments after
    them. *)
Record Path := mkPath { drive : string; root : string; tail : list string }.

#[global] Instance Path_eq_dec : EqDecision Path.
Proof. solve_decision. Defined.

#[global] Instance Path_countable : Countable Path :=
  inj_countable'
    (λ p, (drive p, root p, tail p))
    (λ t, mkPath t.1.1 t.1.2 t.2)
    (λ p, match p with mkPath _ _ _ => eq_refl end).

(** [p.is_absolute()] on Windows: a drive and a root. *)
Definition is_absolute (p : Path) : bool :=
  negb (String.eqb (drive p) "") && negb (String.eqb (root p) "").

(** [p.name]: the last segment, or the empty string. *)
Definition name (p : Path) : string := List.last (tail p) "".

(** [s.lower()], by which pathlib compares two drives.  A string of the
    model holds characters below 256; of those Python lowers [A] to [Z]
    and the capital letters of Latin-1 ([À] to [Þ] without [×]), each by
    adding 32, and leaves the others. *)
Definition lower_char (c : ascii) : ascii :=
  let n := N_of_ascii c in
  if ((65 <=? n) && (n <=? 90)
      || (192 <=? n) && (n <=? 214)
      || (216 <=? n) && (n <=? 222))%N
  then ascii_of_N (n + 32) else c.

Fixpoint lower (s : string) : string :=
  match s with
  | EmptyString => EmptyString
  | String c rest => String (lower_char c) (lower rest)
  end.

(** [a / b] for two paths: a rooted [b] replaces [a] (keeping the drive
    of [a] when it has none of its own), and so does a [b] on another
    drive; anything else is appended.  Two drives are the same when they
    are equal up to case, and the drive kept is then the one of [a]. *)
Definition joinpath (a b : Path) : Path :=
  if negb (String.eqb (root b) "") then
    if String.eqb (drive b) "" then mkPath (drive a) (root b) (tail b) else b
  else if negb (String.eqb (drive b) "")
          && negb (String.eqb (lower (drive b)) (lower (drive a))) then b
  else mkPath (drive a) (root a) (tail a ++ tail b).

End PathLib.
Export PathLib.

(** The argument of [Path(...)]: a string or a path. *)
Inductive PathLike :=
| OfStr (s : string)
| OfPath (p : Path).

(** The exceptions the package raises or lets through. *)
Inductive Exception :=
| ValueError (msg : string)
| KeyError (key : scalar)
| IndexError (msg : string)
| TypeError (msg : string)
| AttributeError (msg : string)
| NotImplementedError
| FileNotFoundError (p : Path)
| PermissionError (p : Path)
| FileExistsError (p : Path)
| SameFileError (src dst : Path)
| RuntimeError (msg : string).

#[global] Instance Exception_eq_dec : EqDecision Exception.
Proof. solve_decision. Defined.

Inductive Result (A : Type) :=
| Ok (a : A)
| Raise (e : Exception).
Arguments Ok {A} a.
Arguments Raise {A} e.

(** ** The INI document (core.utils.ini_handler) *)

Module Ini.

(** Modelled from the spec: [IniHandler] and [IniHandlerSettings] live in
    [core/utils/ini_handler.py], which is not among the sources.  The
    spec describes the document as an INI text preserving comments and
    option order, with get and set of a [[section] option = value]
    triple, values that are strings, integers or floats, a set that may
    fail with a document-level error, and a flag that tracks whether the
    document was modified.  A document is the ordered list of its
    sections; a section is the ordered list of its lines; a line is an
    option or a piece of text kept verbatim. *)
Inductive Line :=
| LOpt (name value : string)
| LText (text : string).

Record IniSection := mkSection { sec_name : string; sec_lines : list Line }.

Record IniHandler := mkIni {
  preamble : list string;
  sections : list IniSection;
  modified : bool
}.

#[global] Instance Line_eq_dec : EqDecision Line.
Proof. solve_decision. Defined.
#[global] Instance IniSection_eq_dec : EqDecision IniSection.
Proof. solve_decision. Defined.
#[global] Instance IniHandler_eq_dec : EqDecision IniHandler.
Proof. solve_decision. Defined.

(** Modelled from the spec: the set of an option, inside one section
    ([ini_handler.py] is not among the sources).  The first line that
    carries the option gets the value, a section without it gets a new
    line at its end, so that comments and option order are preserved.  The
    boolean tells whether the lines changed. *)
Fixpoint set_line (opt v : string) (ls : list Line) : list Line * bool :=
  match ls with
  | [] => ([LOpt opt v], true)
  | LOpt n old :: rest =>
      if String.eqb n opt then (LOpt n v :: rest, negb (String.eqb old v))
      else let r := set_line opt v rest in (LOpt n old :: r.1, r.2)
  | LText t :: rest =>
      let r := set_line opt v rest in (LText t :: r.1, r.2)
  end.

(** Modelled from the spec: the same one level up ([ini_handler.py] is
    not among the sources).  The first section of that name is written to,
    a document without it gets a new section at its end. *)
Fixpoint set_section (sec opt v : string) (ss : list IniSection)
  : list IniSection * bool :=
  match ss with
  | [] => ([mkSection sec [LOpt opt v]], true)
  | s :: rest =>
      if String.eqb (sec_name s) sec then
        let r := set_line opt v (sec_lines s) in
        (mkSection (sec_name s) r.1 :: rest, r.2)
      else let r := set_section sec opt v rest in (s :: r.1, r.2)
  end.

(** Modelled from the spec: [ini.set_option(section, option, value)]
    ([ini_handler.py] is not among the sources).  The value is written as
    its text and the document remembers whether that changed it; values
    are strings, integers or floats, so a dictionary is refused with a
    document-level error (its message on the left). *)
Definition set_option (ini : IniHandler) (sec opt : string) (value : ini_value)
  : string + IniHandler :=
  match value with
  | Sub _ => inl "unsupported value type"
  | Lit v =>
      let r := set_section sec opt (py_str v) (sections ini) in
      inr (mkIni (preamble ini) r.1 (modified ini || r.2))
  end.

(** Modelled from the spec: [ini.is_modified()], the flag the document
    keeps ([ini_handler.py] is not among the sources). *)
Definition is_modified (ini : IniHandler) : bool := modified ini.

(** Modelled from the spec: the get of an option ([ini_handler.py] is not
    among the sources): the first section of that name, its first line
    carrying the option. *)
Fixpoint get_line (opt : string) (ls : list Line) : option string :=
  match ls with
  | [] => None
  | LOpt n v :: rest => if String.eqb n opt then Some v else get_line opt rest
  | LText _ :: rest => get_line opt rest
  end.

Fixpoint get_section (sec opt : string) (ss : list IniSection) : option string :=
  match ss with
  | [] => None
  | s :: rest =>
      if String.eqb (sec_name s) sec then get_line opt (sec_lines s)
      else get_section sec opt rest
  end.

Definition get_option (ini : IniHandler) (sec opt : string) : option string :=
  get_section sec opt (sections ini).

End Ini.

(** ** Configuration (core.config_manager) *)

Inductive SettingType := Constant | Bool | Map.

(** [d3dx_ini]: setting name, then section, then option, then the value
    entry.  Python dictionaries iterate in insertion order. *)
Definition OptionTable := list (string * ini_value).
Definition SectionTable := list (string * OptionTable).
Definition SettingsTable := list (string * SectionTable).

Record ModelImporterConfig := mkImporterConfig {
  package_name : string;
  importer_folder : string;
  game_folder : string;
  launcher_theme : string;
  overwrite_ini : bool;
  run_pre_launch : string;
  run_pre_launch_signature : string;
  run_pre_launch_wait : bool;
  run_post_load : string;
  run_post_load_signature : string;
  run_post_load_wait : bool;
  d3dx_ini : SettingsTable
}.

(** The [Config.Active.Migoto] flags read by [update_d3dx_ini]. *)
Record MigotoConfig := mkMigotoConfig {
  debug_logging : bool;
  mute_warnings : bool;
  enable_hunting : bool;
  dump_shaders : bool
}.

(** [Config.Active.Importer], [Config.Active.Migoto] and
    [Config.Launcher.active_importer]. *)
Record Config := mkConfig {
  Importer : ModelImporterConfig;
  Migoto : MigotoConfig;
  active_importer : string
}.

Definition set_game_folder (folder : string) (c : Config) : Config :=
  let i := Importer c in
  mkConfig
    (mkImporterConfig (package_name i) (importer_folder i) folder
       (launcher_theme i) (overwrite_ini i) (run_pre_launch i)
       (run_pre_launch_signature i) (run_pre_launch_wait i) (run_post_load i)
       (run_post_load_signature i) (run_post_load_wait i) (d3dx_ini i))
    (Migoto c) (active_importer c).

(** ** Events (core.event_manager) *)

Inductive Event :=
| InitializeInstallation
| StatusUpdate (status : string)
| OpenSettings
| StartAndInject (exe_path : Path)
| ShowError (modal : bool) (confirm_text cancel_text message : string)
| Update (no_thread force reinstall : bool) (packages : list string).

#[global] Instance Event_eq_dec : EqDecision Event.
Proof. solve_decision. Defined.

(** What the package does to the world outside it, in the order it does
    it: events fired and called, file-system queries and writes, the clock,
    and the methods of the base class and the subclass it goes through. *)
Inductive Effect :=
| Fired (e : Event)
| Called (e : Event) (answer : bool)
| PathExists (p : Path)
| PathIsDir (p : Path)
| OpenRead (p : Path)
| OpenWrite (p : Path)
| VerifyPath (p : option Path)
| Copy2 (src dst : Path)
| Now
| MoveContents (src dst : Path)
| AutodetectGameFolder
| ValidateGameExePath (game_path : Path)
| InitializeGameLaunch (game_path : Path).

#[global] Instance Effect_eq_dec : EqDecision Effect.
Proof. solve_decision. Defined.

(** ** Subscripts and the state-and-exception monad *)

(** [str(value)] for an entry of the table; a dictionary prints as Python
    prints it (quotes inside its strings are not escaped here). *)
Definition py_repr (v : scalar) : string :=
  match v with
  | SStr s => "'" +:+ s +:+ "'"
  | _ => py_str v
  end.

Fixpoint py_items (d : list (string * scalar)) : string :=
  match d with
  | [] => ""
  | [(k, v)] => "'" +:+ k +:+ "': " +:+ py_repr v
  | (k, v) :: rest => "'" +:+ k +:+ "': " +:+ py_repr v +:+ ", " +:+ py_items rest
  end.

Definition value_str (value : ini_value) : string :=
  match value with
  | Lit v => py_str v
  | Sub d => "{" +:+ py_items d +:+ "}"
  end.

(** [s[i]] on a string: negative indices count from the end. *)
Definition str_index (s : string) (i : Z) : Result ini_value :=
  let n := Z.of_nat (String.length s) in
  let j := if (i <? 0)%Z then (i + n)%Z else i in
  if ((0 <=? j) && (j <? n))%Z
  then Ok (Lit (SStr (String.substring (Z.to_nat j) 1 s)))
  else Raise (IndexError "string index out of range").

(** [values[key]]: a dictionary raises [KeyError] on a key it does not
    hold (its keys are strings, so any other key is absent); a string is
    indexed by position; any other literal is not subscriptable. *)
Definition getitem (values : ini_value) (key : scalar) : Result ini_value :=
  match values with
  | Sub d =>
      match key with
      | SStr k =>
          match dict_get k d with
          | Some v => Ok (Lit v)
          | None => Raise (KeyError key)
          end
      | _ => Raise (KeyError key)
      end
  | Lit (SStr s) =>
      match key with
      | SInt i => str_index s i
      | SBool b => str_index s (if b then 1 else 0)%Z
      | _ => Raise (TypeError "string indices must be integers")
      end
  | Lit _ => Raise (TypeError "object is not subscriptable")
  end.

Definition nl : string := String (Ascii.ascii_of_nat 10) "".

Section Package.

(** What a file holds (text or bytes); the package only copies it around
    and hands it to the INI reader. *)
Context {Content : Type}.

Inductive Node :=
| File (c : Content)
| Dir.

(** The file system says which paths exist and what they are.  It does
    not tie a path to its parent directory. *)
Definition World : Type := Config * gmap Path Node.

Record State := mkState {
  config : Config;
  fs : gmap Path Node;
  backups_path : option Path;      (* [self.backups_path] *)
  now : string;                    (* the clock, already formatted *)
  trace : list Effect
}.

(** The collaborators of the package that are not part of it: pathlib's
    parser and printer, the application paths, the reader and writer of
    the INI text, the event bus, and what the package inherits from
    [Package]. *)
Record Host := mkHost {
  PathOf : string → Path;                    (* [Path(s)] *)
  str_of : Path → string;                    (* [str(p)] *)
  App_Root : Path;                           (* [Paths.App.Root] *)
  App_Backups : Path;                        (* [Paths.App.Backups] *)
  ini_parse : Content → Ini.IniHandler;
  ini_to_string : Ini.IniHandler → Content;
  dispatch : Event → World → World;          (* the subscribers of an event *)
  respond : Event → World → bool;            (* the answer to [Events.Call] *)
  metadata_package_name : string;            (* [self.metadata.package_name] *)
  downloaded_asset_path : Path;              (* [self.downloaded_asset_path] *)
  move_contents_impl : Path → Path → World → Result unit * World
}.

(** The methods a game integration overrides. *)
Record Integration := mkIntegration {
  validate_game_exe_path_impl : Path → World → Result Path * World;
  autodetect_game_folder_impl : World → Result Path * World;
  initialize_game_launch_impl : Path → World → Result unit * World
}.

(** The base class leaves them unimplemented. *)
Definition base_integration : Integration :=
  mkIntegration
    (λ _ w, (Raise NotImplementedError, w))
    (λ w, (Raise NotImplementedError, w))
    (λ _ w, (Raise NotImplementedError, w)).

Definition M (A : Type) : Type := State → Result A * State.

#[global] Instance M_ret : MRet M := λ A a s, (Ok a, s).

#[global] Instance M_bind : MBind M := λ A B f m s,
  match m s with
  | (Ok a, s') => f a s'
  | (Raise e, s') => (Raise e, s')
  end.

Definition raise {A} (e : Exception) : M A := λ s, (Raise e, s).

(** [try: m  except Exception as e: h e] — what [m] did to the state
    before it raised stays done. *)
Definition try_except {A} (m : M A) (h : Exception → M A) : M A := λ s,
  match m s with
  | (Ok a, s') => (Ok a, s')
  | (Raise e, s') => h e s'
  end.

Definition log (e : Effect) : M unit := λ s,
  (Ok tt, mkState (config s) (fs s) (backups_path s) (now s) (trace s ++ [e])).

Definition get_config : M Config := λ s, (Ok (config s), s).

Definition set_world (w : World) (s : State) : State :=
  mkState w.1 w.2 (backups_path s) (now s) (trace s).

(** A method of the host or of the integration, run on the world. *)
Definition on_world {A} (f : World → Result A * World) : M A := λ s,
  let r := f (config s, fs s) in (r.1, set_world r.2 s).

Existing Class Host.
Existing Class Integration.

Context {host : Host} {impl : Integration}.

(** [Events.Fire(e)] and [Events.Call(e)] *)
Definition Fire (e : Event) : M unit :=
  log (Fired e);; on_world (λ w, (Ok tt, dispatch host e w)).

Definition Call (e : Event) : M bool := λ s,
  let answer := respond host e (config s, fs s) in
  (log (Called e answer);; on_world (λ w, (Ok answer, dispatch host e w))) s.

(** *** File-system primitives *)

Definition path_exists (p : Path) : M bool := λ s,
  (log (PathExists p);; mret (bool_decide (is_Some (fs s !! p)))) s.

Definition path_is_dir (p : Path) : M bool := λ s,
  (log (PathIsDir p);;
   mret (match fs s !! p with Some Dir => true | _ => false end)) s.

(** [open(p, 'r')] and reading it all *)
Definition open_read (p : Path) : M Content := λ s,
  (log (OpenRead p);;
   match fs s !! p with
   | Some (File c) => mret c
   | Some Dir => raise (PermissionError p)
   | None => raise (FileNotFoundError p)
   end) s.

Definition put_file (p : Path) (c : Content) : M unit := λ s,
  (Ok tt, mkState (config s) (<[p := File c]> (fs s)) (backups_path s) (now s) (trace s)).

Definition put_dir (p : Path) : M unit := λ s,
  (Ok tt, mkState (config s) (<[p := Dir]> (fs s)) (backups_path s) (now s) (trace s)).

(** [open(p, 'w')] and writing [c] *)
Definition open_write (p : Path) (c : Content) : M unit := λ s,
  (log (OpenWrite p);;
   match fs s !! p with
   | Some Dir => raise (PermissionError p)
   | _ => put_file p c
   end) s.

(** [a / s] with a string on the right *)
Definition div_str (a : Path) (s : string) : Path := joinpath a (PathOf host s).

(** [shutil.copy2(src, dst)]: a directory as destination receives the
    file under its own name; copying a file onto itself is refused. *)
Definition copy2 (src dst : Path) : M unit := λ s,
  (log (Copy2 src dst);;
   let target :=
     match fs s !! dst with
     | Some Dir => div_str dst (name src)
     | _ => dst
     end in
   if decide (target = src) then raise (SameFileError src target)
   else match fs s !! src with
        | None => raise (FileNotFoundError src)
        | Some Dir => raise (PermissionError src)
        | Some (File c) =>
            match fs s !! target with
            | Some Dir => raise (PermissionError target)
            | _ => put_file target c
            end
        end) s.

(** Modelled from the spec: [Paths.verify_path] lives in
    [core/path_manager.py], which is not among the sources.  The spec
    has it ensure that the backup root directory exists.  Given [None]
    there is no path to act on, and Python fails on the first use of it
    as a path. *)
Definition verify_path (p : option Path) : M unit := λ s,
  (log (VerifyPath p);;
   match p with
   | None => raise (AttributeError "'NoneType' object has no attribute 'mkdir'")
   | Some d =>
       match fs s !! d with
       | Some Dir => mret tt
       | Some (File _) => raise (FileExistsError d)
       | None => put_dir d
       end
   end) s.

(** [self.move_contents(src, dst)], inherited from [Package]. *)
Definition move_contents (src dst : Path) : M unit :=
  log (MoveContents src dst);; on_world (move_contents_impl host src dst).

(** ** ModelImporterConfig.importer_path *)

Definition importer_path (c : ModelImporterConfig) : Path :=
  let importer_path := PathOf host (importer_folder c) in
  if is_absolute importer_path then importer_path
  else joinpath (App_Root host) importer_path.

Definition d3dx_ini_path (c : Config) : Path :=
  div_str (importer_path (Importer c)) "d3dx.ini".

(** ** ModelImporterPackage *)

(** [Path(game_folder)] and [str(game_folder)] *)
Definition Path_ (x : PathLike) : Path :=
  match x with
  | OfStr s => PathOf host s
  | OfPath p => p
  end.

Definition str_ (x : PathLike) : string :=
  match x with
  | OfStr s => s
  | OfPath p => str_of host p
  end.

Definition validate_game_path (game_folder : PathLike) : M Path :=
  let game_path := Path_ game_folder in
  if negb (is_absolute game_path) then
    raise (ValueError "Game folder is not a valid path!")
  else
    e ← path_exists game_path;
    if negb e then raise (ValueError "Game folder does not exist!")
    else
      d ← path_is_dir game_path;
      if negb d then raise (ValueError "Game folder is not a directory!")
      else mret game_path.

Definition validate_game_exe_path (game_path : Path) : M Path :=
  log (ValidateGameExePath game_path);;
  on_world (validate_game_exe_path_impl impl game_path).

Definition autodetect_game_folder : M Path :=
  log AutodetectGameFolder;; on_world (autodetect_game_folder_impl impl).

Definition initialize_game_launch (game_path : Path) : M unit :=
  log (InitializeGameLaunch game_path);;
  on_world (initialize_game_launch_impl impl game_path).

(** *** set_default_ini_values *)

(** The key and the value for one option, by the type of the setting. *)
Definition resolve_value (setting_type : SettingType) (setting_value : scalar)
    (values : ini_value) : Result (scalar * ini_value) :=
  match setting_type with
  | Constant => Ok (SNone, values)
  | Bool =>
      let key := SStr (if truthy setting_value then "on" else "off") in
      match getitem values key with
      | Ok value => Ok (key, value)
      | Raise e => Raise e
      end
  | Map =>
      let key := setting_value in
      match getitem values key with
      | Ok value => Ok (key, value)
      | Raise e => Raise e
      end
  end.

(** The body of the inner loop: the key and the value, the check for a
    missing value, and the write. *)
Definition set_default_ini_value (setting_type : SettingType)
    (setting_value : scalar) (section option : string) (values : ini_value)
    (ini : Ini.IniHandler) : Result Ini.IniHandler :=
  match resolve_value setting_type setting_value values with
  | Raise e => Raise e
  | Ok (key, value) =>
      if decide (value = Lit SNone) then
        Raise (ValueError ("Config is missing value for section `" +:+ section
                           +:+ "` option `" +:+ option +:+ "` key `"
                           +:+ py_str key))
      else
        match Ini.set_option ini section option value with
        | inr ini' => Ok ini'
        | inl msg =>
            Raise (ValueError ("Failed to set section " +:+ section
                               +:+ " option " +:+ option +:+ " to "
                               +:+ value_str value
                               +:+ ": " +:+ msg))
        end
  end.

(** [for option, values in options.items()] *)
Fixpoint set_default_ini_options (setting_type : SettingType)
    (setting_value : scalar) (section : string) (options : OptionTable)
    (ini : Ini.IniHandler) : Result Ini.IniHandler :=
  match options with
  | [] => Ok ini
  | (option, values) :: rest =>
      match set_default_ini_value setting_type setting_value section option values ini with
      | Ok ini' => set_default_ini_options setting_type setting_value section rest ini'
      | Raise e => Raise e
      end
  end.

(** [for section, options in settings.items()] *)
Fixpoint set_default_ini_sections (setting_type : SettingType)
    (setting_value : scalar) (settings : SectionTable)
    (ini : Ini.IniHandler) : Result Ini.IniHandler :=
  match settings with
  | [] => Ok ini
  | (section, options) :: rest =>
      match set_default_ini_options setting_type setting_value section options ini with
      | Ok ini' => set_default_ini_sections setting_type setting_value rest ini'
      | Raise e => Raise e
      end
  end.

Definition set_default_ini_values (c : Config) (ini : Ini.IniHandler)
    (setting_name : string) (setting_type : SettingType)
    (setting_value : scalar) : Result Ini.IniHandler :=
  match dict_get setting_name (d3dx_ini (Importer c)) with
  | None => Raise (ValueError ("Config is missing " +:+ setting_name +:+ " setting!"))
  | Some settings =>
      set_default_ini_sections setting_type setting_value settings ini
  end.

Definition lift {A} (r : Result A) : M A := λ s, (r, s).

(** *** update_d3dx_ini *)

(** [IniHandler(IniHandlerSettings(ignore_comments=False), f)]: a
    document fresh from the file is not modified. *)
Definition IniHandler_new (f : Content) : Ini.IniHandler :=
  let d := ini_parse host f in
  Ini.mkIni (Ini.preamble d) (Ini.sections d) false.

(** The five calls of [set_default_ini_values], on the configuration
    they read. *)
Definition project_settings (c : Config) (ini : Ini.IniHandler)
  : Result Ini.IniHandler :=
  match set_default_ini_values c ini "core" Constant SNone with
  | Raise e => Raise e
  | Ok ini =>
  match set_default_ini_values c ini "debug_logging" Bool
          (SBool (debug_logging (Migoto c))) with
  | Raise e => Raise e
  | Ok ini =>
  match set_default_ini_values c ini "mute_warnings" Bool
          (SBool (mute_warnings (Migoto c))) with
  | Raise e => Raise e
  | Ok ini =>
  match set_default_ini_values c ini "enable_hunting" Bool
          (SBool (enable_hunting (Migoto c))) with
  | Raise e => Raise e
  | Ok ini =>
      set_default_ini_values c ini "dump_shaders" Bool
        (SBool (dump_shaders (Migoto c)))
  end end end end.

Definition update_d3dx_ini : M unit :=
  Fire (StatusUpdate "Updating d3dx.ini...");;
  c ← get_config;
  let ini_path := d3dx_ini_path c in
  f ← open_read ini_path;
  ini ← lift (project_settings c (IniHandler_new f));
  if Ini.is_modified ini then open_write ini_path (ini_to_string host ini)
  else mret tt.

(** *** validate_package_files *)

Definition damaged_message (c : Config) (ini_path : Path) : string :=
  active_importer c +:+ " installation is damaged!" +:+ nl
  +:+ "Details: Missing critical file: " +:+ name ini_path +:+ "!" +:+ nl
  +:+ "Would you like to restore " +:+ active_importer c +:+ " automatically?".

Definition validate_package_files : M unit :=
  c ← get_config;
  let ini_path := d3dx_ini_path c in
  e ← path_exists ini_path;
  if negb e then
    c ← get_config;
    user_requested_restore ←
      Call (ShowError true "Restore" "Cancel" (damaged_message c ini_path));
    if negb user_requested_restore then
      raise (ValueError ("Missing critical file: " +:+ name ini_path +:+ "!"))
    else
      Fire (Update true true true [metadata_package_name host])
  else mret tt.

(** *** start_game *)

Definition set_config_game_folder (folder : string) : M unit := λ s,
  (Ok tt, mkState (set_game_folder folder (config s)) (fs s)
            (backups_path s) (now s) (trace s)).

(** The [try] block of [start_game]: the configured game folder. *)
Definition configured_game_path : M (Path * Path) :=
  c ← get_config;
  game_path ← validate_game_path (OfStr (game_folder (Importer c)));
  game_exe_path ← validate_game_exe_path game_path;
  mret (game_path, game_exe_path).

(** The [try] block of its handler: the autodetected game folder, written
    back to the configuration once it has passed. *)
Definition autodetected_game_path : M (Path * Path) :=
  game_folder ← autodetect_game_folder;
  game_path ← validate_game_path (OfPath game_folder);
  game_exe_path ← validate_game_exe_path game_path;
  set_config_game_folder (str_ (OfPath game_folder));;
  mret (game_path, game_exe_path).

(** Both with their handlers.  [None] is the [return] of the inner
    handler; otherwise the game path and the executable path the rest of
    the method uses. *)
Definition resolve_game_path : M (option (Path * Path)) :=
  try_except
    (r ← configured_game_path; mret (Some r))
    (λ _,
     try_except
       (r ← autodetected_game_path; mret (Some r))
       (λ _, Fire OpenSettings;; mret None)).

Definition start_game : M unit :=
  (* Ensure package integrity *)
  validate_package_files;;
  (* Write configured settings to main 3dmigoto ini file *)
  update_d3dx_ini;;
  (* Check if game location is properly configured *)
  r ← resolve_game_path;
  match r with
  | None => mret tt
  | Some (game_path, game_exe_path) =>
      (* Execute initialization sequence of implemented importer *)
      initialize_game_launch game_path;;
      Fire (StartAndInject game_exe_path)
  end.

(** *** Backups *)

(** [__init__]: a package starts without a backup root. *)
Definition init (c : Config) (files : gmap Path Node) (clock : string) : State :=
  mkState c files None clock [].

Definition get_now : M string := λ s, (Ok (now s), s).

Definition set_backups_path (b : option Path) : M unit := λ s,
  (Ok tt, mkState (config s) (fs s) b (now s) (trace s)).

Definition initialize_backup : M unit :=
  log Now;;
  t ← get_now;
  let backup_name := metadata_package_name host +:+ " " +:+ t in
  set_backups_path (Some (div_str (App_Backups host) backup_name)).

Definition get_backups_path : M (option Path) := λ s, (Ok (backups_path s), s).

(** [self.backups_path / s]: [None] has no [/]. *)
Definition backups_div (b : option Path) (s : string) : M Path :=
  match b with
  | Some b => mret (div_str b s)
  | None => raise (TypeError "unsupported operand type(s) for /: 'NoneType' and 'str'")
  end.

Definition backup (file_path : Path) : M unit :=
  e ← path_exists file_path;
  if negb e then mret tt
  else
    b ← get_backups_path;
    verify_path b;;
    b ← get_backups_path;
    dst ← backups_div b (name file_path);
    copy2 file_path dst.

Definition restore (file_path : Path) : M unit :=
  e ← path_exists file_path;
  if negb e then mret tt
  else
    b ← get_backups_path;
    src ← backups_div b (name file_path);
    copy2 src file_path.

(** *** install_latest_version *)

Definition install_latest_version (clean : bool) : M unit :=
  Fire InitializeInstallation;;
  initialize_backup;;
  c ← get_config;
  let d3dx_ini_path := d3dx_ini_path c in
  backup d3dx_ini_path;;
  c ← get_config;
  move_contents (downloaded_asset_path host) (importer_path (Importer c));;
  c ← get_config;
  if negb (overwrite_ini (Importer c)) then restore d3dx_ini_path
  else mret tt.

(** ** Vocabulary of the properties *)

(** The state after some more effects, everything else as it was. *)
Definition logged (es : list Effect) (s : State) : State :=
  mkState (config s) (fs s) (backups_path s) (now s) (trace s ++ es).

(** The error kinds of the spec, as the code raises them. *)
Definition InvalidPath : Exception := ValueError "Game folder is not a valid path!".
Definition PathNotFound : Exception := ValueError "Game folder does not exist!".
Definition NotADirectory : Exception := ValueError "Game folder is not a directory!".

(** The destination removed by someone else between two calls. *)
Definition delete_file (p : Path) (s : State) : State :=
  mkState (config s) (delete p (fs s)) (backups_path s) (now s) (trace s).

(** A computation that only adds to the trace. *)
Definition extends {A} (m : M A) : Prop :=
  ∀ s, ∃ t, trace (m s).2 = trace s ++ t.

(** The writes [update_d3dx_ini] asks of the document, as triples of
    section, option and text: those of the entries of the five setting
    groups that resolve to a literal. *)
Definition Write : Type := string * string * string.






(** The section and option a write goes to, and whether a document has
    that option. *)
Definition key (w : Write) : string * string := w.1.







(** The two configuration errors of the projection, as the code words
    them. *)
Definition MissingSetting (setting_name : string) : Exception :=
  ValueError ("Config is missing " +:+ setting_name +:+ " setting!").

Definition MissingSettingValue (section opt : string) (key : scalar) : Exception :=
  ValueError ("Config is missing value for section `" +:+ section
              +:+ "` option `" +:+ opt +:+ "` key `" +:+ py_str key).

(** The error kind of the spec for a missing critical file. *)
Definition CorruptInstallation (ini_path : Path) : Exception :=
  ValueError ("Missing critical file: " +:+ name ini_path +:+ "!").

End Package.

Arguments Node : clear implicits.
Arguments World : clear implicits.
Arguments State : clear implicits.
Arguments Host : clear implicits.
Arguments Integration : clear implicits.
Arguments M : clear implicits.

(** ** A host and an integration to run the package on *)

Module Demo.

(** The text of a file, as the document it spells. *)
Definition Content : Type := Ini.IniHandler.

Definition parse (f : Content) : Ini.IniHandler := f.

Definition to_string (d : Ini.IniHandler) : Content :=
  Ini.mkIni (Ini.preamble d) (Ini.sections d) false.

(** A reader of drive-letter paths, enough for the examples: the string is
    cut at its separators, a leading [X:] is the drive. *)
Definition is_sep (c : Ascii.ascii) : bool :=
  (Ascii.eqb c "\"%char) || (Ascii.eqb c "/"%char).

Fixpoint segments (s cur : string) : list string :=
  match s with
  | EmptyString => [cur]
  | String c rest =>
      if is_sep c then cur :: segments rest ""
      else segments rest (cur +:+ String c "")
  end.

Definition is_drive (d : string) : bool :=
  match d with
  | String _ (String c EmptyString) => Ascii.eqb c ":"%char
  | _ => false
  end.

Definition nonempty (l : list string) : list string :=
  List.filter (λ x, negb (String.eqb x "")) l.

Definition PathOf (s : string) : Path :=
  match segments s "" with
  | d :: rest =>
      if is_drive d then
        mkPath d (match rest with [] => "" | _ => "\" end) (nonempty rest)
      else if String.eqb d "" && negb (bool_decide (rest = [])) then
        mkPath "" "\" (nonempty rest)
      else mkPath "" "" (nonempty (d :: rest))
  | [] => mkPath "" "" []
  end.

Definition str_of (p : Path) : string :=
  drive p +:+ root p +:+ String.concat "\" (tail p).

Definition Root : Path := mkPath "C:" "\" ["XXMI"].
Definition Backups : Path := mkPath "C:" "\" ["XXMI"; "Backups"].
Definition Downloads : Path := mkPath "C:" "\" ["XXMI"; "Downloads"; "WWMI"].
Definition GameDir : Path := mkPath "C:" "\" ["Games"; "Wuthering Waves"].
Definition GameExe : Path := mkPath "C:" "\" ["Games"; "Wuthering Waves"; "Client.exe"].
Definition IniPath : Path := mkPath "C:" "\" ["XXMI"; "WWMI"; "d3dx.ini"].

(** Subscribers that do nothing, and a user who gives a fixed answer. *)
Definition quiet (e : Event) (w : World Content) : World Content := w.

Definition answers (a : bool) (e : Event) (w : World Content) : bool := a.

(** A reinstall that puts the given [d3dx.ini] back at once. *)
Definition reinstalls (f : Content) (e : Event) (w : World Content) : World Content :=
  match e with
  | Update _ _ true _ => (w.1, <[IniPath := File f]> w.2)
  | _ => w
  end.

(** The downloaded [d3dx.ini], when there is one, replaces the installed
    one. *)
Definition move_ini (src dst : Path) (w : World Content)
  : Result unit * World Content :=
  let from := joinpath src (PathOf "d3dx.ini") in
  let to := joinpath dst (PathOf "d3dx.ini") in
  match w.2 !! from with
  | Some n => (Ok tt, (w.1, <[to := n]> (delete from w.2)))
  | None => (Ok tt, w)
  end.

Definition host (on_event : Event → World Content → World Content)
    (answer : bool) : Host Content :=
  mkHost PathOf str_of Root Backups parse to_string
    on_event (answers answer) "WWMI" Downloads move_ini.

(** An integration that finds the game in [GameDir] and wants
    [Client.exe] there. *)
Definition impl : Integration Content :=
  mkIntegration
    (λ game_path w,
       let exe := joinpath game_path (PathOf "Client.exe") in
       match w.2 !! exe with
       | Some (File _) => (Ok exe, w)
       | _ => (Raise (ValueError "Game executable not found!"), w)
       end)
    (λ w, (Ok GameDir, w))
    (λ _ w, (Ok tt, w)).

(** The settings table of the examples. *)
Definition table : SettingsTable :=
  [("core", [("Loader", [("loader", Lit (SStr "XXMI Launcher.exe"))])]);
   ("debug_logging",
      [("Logging", [("calls", Sub [("on", SInt 1); ("off", SInt 0)])])]);
   ("mute_warnings",
      [("Logging", [("show_warnings", Sub [("on", SInt 0); ("off", SInt 1)])])]);
   ("enable_hunting",
      [("Hunting", [("hunting", Sub [("on", SInt 2); ("off", SInt 0)])])]);
   ("dump_shaders",
      [("Hunting", [("marking_actions",
                       Sub [("on", SStr "clipboard hlsl asm regex");
                            ("off", SStr "clipboard")])])])].


(** A [debug_logging] entry without its [off] value. *)
Definition one_sided_table : SettingsTable :=
  [("debug_logging", [("Logging", [("calls", Sub [("on", SInt 1)])])])].

Definition cfg (folder : string) (overwrite : bool) (t : SettingsTable) : Config :=
  mkConfig
    (mkImporterConfig "WWMI" "WWMI" folder "Default" overwrite "" "" false "" "" false t)
    (mkMigotoConfig false false true false)
    "WWMI".

Definition document : Ini.IniHandler :=
  Ini.mkIni ["; 3dmigoto settings"]
    [Ini.mkSection "Logging" [Ini.LText "; log verbosity"; Ini.LOpt "calls" "1"];
     Ini.mkSection "Hunting" [Ini.LOpt "hunting" "0"]]
    false.

Definition fresh_document : Ini.IniHandler :=
  Ini.mkIni ["; defaults"] [Ini.mkSection "Loader" [Ini.LOpt "target" "Client.exe"]] false.

(** The game is installed; the importer has its [d3dx.ini] or not. *)
Definition game_files : gmap Path (Node Content) :=
  {[ GameDir := Dir; GameExe := File (Ini.mkIni [] [] false) ]}.

Definition installed_files : gmap Path (Node Content) :=
  <[IniPath := File document]> game_files.

Definition state (c : Config) (files : gmap Path (Node Content)) : State Content :=
  init c files "2024-05-01 12-00-00".

(** The configured game folder is not absolute; the game is where the
    integration looks for it. *)
Definition installed : State Content :=
  state (cfg "relative/path" false table) installed_files.

Definition damaged : State Content :=
  state (cfg "relative/path" false table) game_files.


(** A download waiting to be installed over the installed package. *)
Definition downloaded : State Content :=
  state (cfg "relative/path" false table)
    (<[joinpath Downloads (PathOf "d3dx.ini") := File fresh_document]> installed_files).

(** The installed package with a backup session open. *)
Definition in_session : State Content :=
  mkState (cfg "relative/path" false table) installed_files (Some Backups)
    "2024-05-01 12-00-00" [].

End Demo.

(** Further states of the demo package. *)
Module DemoMore.
Import Demo.

Definition h : Host Content := host quiet true.

(** The configured game folder is the right one. *)
Definition configured : State Content :=
  state (cfg "C:\Games\Wuthering Waves" false table) installed_files.

(** The settings table lacks four of the five groups. *)
Definition incomplete : State Content :=
  state (cfg "relative/path" false one_sided_table) installed_files.

(** A first install: the download is there, the package is not. *)
Definition first_install : State Content :=
  state (cfg "relative/path" false table)
    (<[joinpath Downloads (PathOf "d3dx.ini") := File fresh_document]> game_files).

(** The importer folder given as another drive, with no root. *)
Definition other_drive : ModelImporterConfig :=
  mkImporterConfig "WWMI" "D:" "" "Default" true "" "" false "" "" false [].

(** The importer folder given as the root's drive in small letters, with
    no root. *)
Definition same_drive : ModelImporterConfig :=
  mkImporterConfig "WWMI" "c:" "" "Default" true "" "" false "" "" false [].

End DemoMore.

(** ** The rest of the package *)

Section PackageMore.

Context {Content : Type} {host : Host Content} {impl : Integration Content}.

(** [load], after what it inherits: the three [self.subscribe] calls and
    [super().load()] are the parameter [inherited]; the two nested [try]
    blocks are those of [start_game], with [pass] in the inner handler. *)
Definition load (inherited : M Content unit) : M Content unit :=
  inherited;;
  try_except
    (configured_game_path;; mret tt)
    (λ _,
     try_except
       (autodetected_game_path;; mret tt)
       (λ _, mret tt)).

(** *** Vocabulary of the further properties *)

(** A computation all of whose effects are of one kind. *)
Definition emits {A} (P : Effect → Prop) (m : M Content A) : Prop :=
  ∀ s, ∃ t, trace (m s).2 = trace s ++ t ∧ Forall P t.

(** A computation that hands over to the injector at most once, as the
    last thing it does and only when it returns; [P] holds of its other
    effects. *)
Definition hands_over {A} (P : Effect → Prop) (m : M Content A) : Prop :=
  ∀ s, ∃ t, Forall P t
    ∧ (trace (m s).2 = trace s ++ t
       ∨ ∃ exe r, trace (m s).2 = trace s ++ t ++ [Fired (StartAndInject exe)]
                  ∧ (m s).1 = Ok r).

End PackageMore.

(** The effects of a launch before the hand-over: anything but the
    hand-over itself and the effects of a backup or an install. *)
Definition launch_effect (e : Effect) : Prop :=
  match e with
  | Fired (StartAndInject _) | Fired InitializeInstallation
  | VerifyPath _ | Copy2 _ _ | Now | MoveContents _ _ => False
  | _ => True
  end.

(** The effects of the integrity check and of the INI update. *)
Definition integrity_effect (e : Effect) : Prop :=
  match e with
  | Fired (StatusUpdate _) | Fired (Update _ _ _ _) | Called (ShowError _ _ _ _) _
  | PathExists _ | OpenRead _ | OpenWrite _ => True
  | _ => False
  end.

(** The effects of an install. *)
Definition install_effect (e : Effect) : Prop :=
  match e with
  | Fired InitializeInstallation | Now | PathExists _ | VerifyPath _
  | Copy2 _ _ | MoveContents _ _ => True
  | _ => False
  end.

(** The effects of looking for the game: queries and the methods of the
    integration, no event. *)
Definition lookup_effect (e : Effect) : Prop :=
  match e with
  | PathExists _ | PathIsDir _ | AutodetectGameFolder | ValidateGameExePath _ => True
  | _ => False
  end.

(** The five setting groups [update_d3dx_ini] projects. *)
Definition setting_groups : list string :=
  ["core"; "debug_logging"; "mute_warnings"; "enable_hunting"; "dump_shaders"].

(** ** Two statements of the spec, for comparison *)

(** An accepted restore as the spec words it: once the reinstall request
    is fired nothing else happens. *)
Definition stops_after_reinstall_request {Content : Type} (host : Host Content)
    (impl : Integration Content) (s : State Content) : Prop :=
  let ini := d3dx_ini_path (config s) in
  let dialog := ShowError true "Restore" "Cancel" (damaged_message (config s) ini) in
  trace (start_game s).2
  = trace s ++ [PathExists ini; Called dialog true;
                Fired (Update true true true [metadata_package_name host])].


(** * Properties *)

(** ** The INI document: reading back and writing again *)

Module IniFacts.
Import Ini.


(** *** Lines *)






(** *** Sections *)






(** *** A pass of writes *)
















End IniFacts.

(** ** The projection of the settings is a pass of writes *)

Module ProjectFacts.
Import Ini IniFacts.









End ProjectFacts.

(** *** set_default_ini_values *)

Lemma resolve_value_Bool (setting_value : scalar) (d : list (string * scalar)) :
  let k := if truthy setting_value then "on" else "off" in
  resolve_value Bool setting_value (Sub d)
  = match dict_get k d with
    | Some v => Ok (SStr k, Lit v)
    | None => Raise (KeyError (SStr k))
    end.
Proof. cbn. by destruct (dict_get _ d). Qed.

(** A key that the sub-value dictionary does not hold ends the projection
    with the [KeyError] of the subscript. *)
Lemma set_default_ini_value_absent_key (setting_type : SettingType)
    (setting_value key : scalar) (section opt : string)
    (d : list (string * scalar)) (ini : Ini.IniHandler) :
  (setting_type = Bool ∧ key = SStr (if truthy setting_value then "on" else "off")
   ∨ setting_type = Map ∧ key = setting_value) →
  getitem (Sub d) key = Raise (KeyError key) →
  set_default_ini_value setting_type setting_value section opt (Sub d) ini
  = Raise (KeyError key).
Proof.
  unfold set_default_ini_value, resolve_value.
  intros [[-> ->]|[-> ->]] H; by rewrite H.
Qed.

Lemma set_default_ini_values_missing_setting (c : Config) (ini : Ini.IniHandler)
    (setting_name : string) (setting_type : SettingType) (setting_value : scalar) :
  dict_get setting_name (d3dx_ini (Importer c)) = None →
  set_default_ini_values c ini setting_name setting_type setting_value
  = Raise (MissingSetting setting_name).
Proof. unfold set_default_ini_values. by intros ->. Qed.

(** C3.  With [debug_logging] off and a table whose [calls] entry has an
    [on] value only, the projection does not end in the configuration
    error that names section, option and key: the subscript raises
    [KeyError] first. *)
Theorem bool_setting_absent_key_raises_KeyError :
  set_default_ini_values (Demo.cfg "" false Demo.one_sided_table) Demo.document
    "debug_logging" Bool (SBool false)
  = Raise (KeyError (SStr "off"))
  ∧ KeyError (SStr "off") ≠ MissingSettingValue "Logging" "calls" (SStr "off").
Proof. split; [reflexivity|discriminate]. Qed.

(** Running a computation: the operations of the monad and the
    primitives are unfolded and the result simplified. *)
Ltac run :=
  repeat (progress (
    unfold mbind, M_bind, mret, M_ret, raise, log, get_config, on_world,
      set_world, lift, try_except, put_file, put_dir, get_now,
      set_backups_path, get_backups_path, set_config_game_folder,
      path_exists, path_is_dir, open_read, open_write, backups_div in *;
    cbn in *)).

Ltac notin :=
  repeat (apply not_elem_of_cons; split; [discriminate|]);
  apply not_elem_of_nil.

Section PackageFacts.

Context {Content : Type} {host : Host Content} {impl : Integration Content}.



(** *** validate_game_path *)


(** C1.  A game folder that is an absolute path of an existing directory
    is returned as the path it denotes; a folder that is not absolute
    fails with InvalidPath with no file-system query made (the state,
    its trace included, is untouched); an absolute folder that does not
    exist fails with PathNotFound after the existence query alone; an
    absolute folder that exists and is a file fails with NotADirectory
    after the existence query and the directory query, in that order. *)
Theorem validate_game_path_checks (game_folder : PathLike) (s : State Content) :
  let game_path := Path_ game_folder in
  (is_absolute game_path = true → fs s !! game_path = Some Dir →
     validate_game_path game_folder s
     = (Ok game_path, logged [PathExists game_path; PathIsDir game_path] s))
  ∧ (is_absolute game_path = false →
     validate_game_path game_folder s = (Raise InvalidPath, s))
  ∧ (is_absolute game_path = true → fs s !! game_path = None →
     validate_game_path game_folder s
     = (Raise PathNotFound, logged [PathExists game_path] s))
  ∧ (∀ c, is_absolute game_path = true → fs s !! game_path = Some (File c) →
     validate_game_path game_folder s
     = (Raise NotADirectory, logged [PathExists game_path; PathIsDir game_path] s)).
Proof.
  intros game_path. unfold validate_game_path. fold game_path.
  repeat split.
  - intros -> Hd. run. rewrite Hd. run. rewrite Hd. run.
    unfold logged. by rewrite <- app_assoc.
  - by intros ->.
  - intros -> Hn. run. by rewrite Hn.
  - intros c -> Hf. run. rewrite Hf. run. rewrite Hf. run.
    unfold logged. by rewrite <- app_assoc.
Qed.


(** *** backup and restore *)


(** What a successful [backup] of an existing file has done: the backup
    root is a directory, and the copy sits in it under the file's name. *)
Lemma backup_ok_inv (f b : Path) (c : Content) (s s1 : State Content) :
  backups_path s = Some b →
  fs s !! f = Some (File c) →
  fs s !! div_str b (name f) ≠ Some Dir →
  backup f s = (Ok tt, s1) →
  let dst := div_str b (name f) in
  dst ≠ f ∧ dst ≠ b ∧ f ≠ b
  ∧ backups_path s1 = Some b
  ∧ config s1 = config s
  ∧ fs s1 = <[dst := File c]> (<[b := Dir]> (fs s))
  ∧ trace s1 = trace s ++ [PathExists f; VerifyPath (Some b); Copy2 f dst].
Proof.
  intros Hb Hf Hnd. unfold backup, verify_path, copy2. run.
  rewrite Hf. run. rewrite Hb. run.
  assert (Hfb : fs s !! b = None ∨ fs s !! b = Some Dir → f ≠ b).
  { intros [E|E] ->; congruence. }
  assert (Hfin : ∀ files tr,
    files !! f = Some (File c) →
    files !! b = Some Dir →
    (∀ p, p ≠ b → files !! p = fs s !! p) →
    copy2 f (div_str b (name f))
      (mkState (config s) files (Some b) (now s) tr) = (Ok tt, s1) →
    div_str b (name f) ≠ f ∧ div_str b (name f) ≠ b
    ∧ backups_path s1 = Some b ∧ config s1 = config s
    ∧ fs s1 = <[div_str b (name f) := File c]> files
    ∧ trace s1 = tr ++ [Copy2 f (div_str b (name f))]).
  { intros files tr Hff Hfb' Hsame. unfold copy2. run.
    destruct (decide (div_str b (name f) = b)) as [Edb|Edb].
    - rewrite Edb, Hfb', Edb.
      destruct (decide (b = f)); [congruence|]. run.
      rewrite Hff. run. rewrite Hfb'. run. discriminate.
    - rewrite (Hsame _ Edb).
      destruct (fs s !! div_str b (name f)) as [[cd|]|] eqn:Ed; [|done|];
        (destruct (decide (div_str b (name f) = f)) as [Heq|Hne]; run;
         [discriminate|]);
        rewrite Hff; run; rewrite (Hsame _ Edb), Ed; run;
        intros E; injection E as <-; done. }
  destruct (fs s !! b) as [[cb|]|] eqn:Eb; run.
  - discriminate.
  - (* the root is there already *)
    intros Hrun. apply Hfin in Hrun; [|done|done|done].
    destruct Hrun as (? & ? & ? & ? & -> & ->).
    rewrite (insert_id (fs s) b Dir Eb), <- !app_assoc.
    repeat split; auto.
  - (* the root is created *)
    intros Hrun. apply Hfin in Hrun.
    + destruct Hrun as (? & ? & ? & ? & -> & ->).
      rewrite <- !app_assoc. repeat split; auto.
    + rewrite lookup_insert_ne; [done|]. intros E. by apply Hfb; [left|].
    + apply lookup_insert_eq.
    + intros p Hp. by rewrite lookup_insert_ne.
Qed.

(** C6.  A backup of an existing file followed by a restore of the same
    path, nothing else written in between, puts the pre-backup content
    back when the destination is still there at the restore; with the
    destination deleted in between the restore does nothing (its guard
    looks at the destination, not at the copy) and the destination stays
    gone. *)
Theorem backup_restore_round_trip (f b : Path) (c : Content) (s s1 : State Content) :
  backups_path s = Some b →
  fs s !! f = Some (File c) →
  fs s !! div_str b (name f) ≠ Some Dir →
  backup f s = (Ok tt, s1) →
  (∃ s2, restore f s1 = (Ok tt, s2) ∧ fs s2 !! f = Some (File c) ∧ fs s2 = fs s1)
  ∧ (restore f (delete_file f s1)
       = (Ok tt, logged [PathExists f] (delete_file f s1))
     ∧ fs (restore f (delete_file f s1)).2 !! f = None
     ∧ fs (restore f (delete_file f s1)).2 !! div_str b (name f) = Some (File c)).
Proof.
  intros Hb Hf Hnd Hbk.
  destruct (backup_ok_inv f b c s s1 Hb Hf Hnd Hbk)
    as (Hdf & Hdb & Hfb & Hb1 & Hc1 & Hfs1 & Ht1).
  assert (Hf1 : fs s1 !! f = Some (File c)).
  { rewrite Hfs1, !lookup_insert_ne by done. done. }
  assert (Hd1 : fs s1 !! div_str b (name f) = Some (File c)).
  { rewrite Hfs1. apply lookup_insert_eq. }
  split.
  - unfold restore, copy2. run. rewrite Hf1, Hb1. run. rewrite Hf1.
    destruct (decide (f = div_str b (name f))); [congruence|]. run.
    rewrite Hd1. run. rewrite Hf1. run. eexists. split; [reflexivity|]. cbn.
    rewrite lookup_insert_eq. split; [done|]. by apply insert_id.
  - unfold restore. run. rewrite lookup_delete_eq. run.
    split; [done|]. split; [apply lookup_delete_eq|].
    rewrite lookup_delete_ne by done. done.
Qed.

(** C8.  With the destination file there and no copy of that name under
    the current backup root, [restore] is not a no-op: the copy fails
    with a file-not-found error on the missing backup copy, the error
    reaches the caller, and the destination keeps its content. *)
Theorem restore_without_backup_copy (f b : Path) (c : Content) (s : State Content) :
  backups_path s = Some b →
  fs s !! f = Some (File c) →
  fs s !! div_str b (name f) = None →
  restore f s
    = (Raise (FileNotFoundError (div_str b (name f))),
       logged [PathExists f; Copy2 (div_str b (name f)) f] s)
  ∧ fs (restore f s).2 = fs s.
Proof.
  intros Hb Hf Hn.
  assert (restore f s
    = (Raise (FileNotFoundError (div_str b (name f))),
       logged [PathExists f; Copy2 (div_str b (name f)) f] s)) as E.
  { unfold restore, copy2. run. rewrite Hf, Hb. run. rewrite Hf.
    destruct (decide (f = div_str b (name f))) as [Heq|]; [congruence|].
    run. rewrite Hn. run. unfold logged. by rewrite <- app_assoc, Hb. }
  by rewrite E.
Qed.

(** C10.  A package starts with the backup root unset.  In that state a
    backup of a path that does not exist returns at its guard, while a
    backup of a path that exists fails with an error and copies nothing;
    a restore of an existing path fails likewise.  [initialize_backup]
    is what sets the root. *)
Theorem backup_before_initialize_backup :
  (∀ c (files : gmap Path (Node Content)) clock,
     backups_path (init c files clock) = None)
  ∧ (∀ (s : State Content) f, backups_path s = None →
       (fs s !! f = None → backup f s = (Ok tt, logged [PathExists f] s))
       ∧ (is_Some (fs s !! f) →
            (∃ e, backup f s = (Raise e, logged [PathExists f; VerifyPath None] s))
            ∧ (∃ e, restore f s = (Raise e, logged [PathExists f] s))))
  ∧ (∀ s : State Content, is_Some (backups_path (initialize_backup s).2)).
Proof.
  split; [done|]. split.
  - intros s f Hb. split.
    + intros Hn. unfold backup. run. by rewrite Hn.
    + intros [n Hn]. split.
      * eexists. unfold backup, verify_path. run. rewrite Hn. run.
        rewrite Hb. run. unfold logged. by rewrite <- app_assoc, Hb.
      * eexists. unfold restore. run. rewrite Hn. run. rewrite Hb. run.
        unfold logged. by rewrite Hb.
  - intros s. unfold initialize_backup. run. eauto.
Qed.

(** *** install_latest_version *)

(** C9.  The [clean] argument is never read: both values give the same
    result and the same final state, trace of effects included. *)
Theorem install_latest_version_ignores_clean (s : State Content) :
  install_latest_version true s = install_latest_version false s.
Proof. reflexivity. Qed.


(** Running a sequence, one step at a time. *)
Lemma bind_ok {A B} (m : M Content A) (f : A → M Content B) (s s' : State Content) (a : A) :
  m s = (Ok a, s') → (m ≫= f) s = f a s'.
Proof. unfold mbind, M_bind. by intros ->. Qed.

Lemma bind_raise {A B} (m : M Content A) (f : A → M Content B) (s s' : State Content) (e : Exception) :
  m s = (Raise e, s') → (m ≫= f) s = (Raise e, s').
Proof. unfold mbind, M_bind. by intros ->. Qed.

Lemma Fire_run (e : Event) (s : State Content) :
  Fire e s = (Ok tt, set_world (dispatch host e (config s, fs s)) (logged [Fired e] s)).
Proof. reflexivity. Qed.

Lemma initialize_backup_run (s : State Content) :
  initialize_backup s
  = (Ok tt,
     mkState (config s) (fs s)
       (Some (div_str (App_Backups host)
                (metadata_package_name host +:+ " " +:+ now s)))
       (now s) (trace s ++ [Now])).
Proof. reflexivity. Qed.

(** What [backup] has logged when it returns. *)
Lemma backup_ok_trace (f : Path) (s s2 : State Content) :
  backup f s = (Ok tt, s2) →
  config s2 = config s
  ∧ trace s2 = trace s ++
      (if bool_decide (is_Some (fs s !! f))
       then [PathExists f; VerifyPath (backups_path s);
             Copy2 f (match backups_path s with
                      | Some b => div_str b (name f)
                      | None => f
                      end)]
       else [PathExists f]).
Proof.
  unfold backup, verify_path, copy2. run.
  destruct (bool_decide (is_Some (fs s !! f))); run.
  - destruct (backups_path s) as [b|] eqn:Hb; run; [|discriminate].
    destruct (fs s !! b) as [[cb|]|]; run; [discriminate| |];
      repeat (match goal with
              | |- context [decide ?P] => destruct (decide P); run
              | |- context [match ?m !! ?k with _ => _ end] =>
                  destruct (m !! k) as [[?|]|]; run
              end; try discriminate);
      intros E; injection E as <-; cbn; by rewrite <- !app_assoc.
  - by intros [= <-].
Qed.

Lemma move_contents_trace (src dst : Path) (s : State Content) :
  trace (move_contents src dst s).2 = trace s ++ [MoveContents src dst].
Proof. unfold move_contents. run. by destruct (move_contents_impl host src dst (config s, fs s)). Qed.

(** [restore] always starts by asking whether the destination exists. *)
Lemma restore_trace (f : Path) (s : State Content) :
  ∃ t, trace (restore f s).2 = trace s ++ PathExists f :: t.
Proof.
  unfold restore, copy2. run.
  destruct (bool_decide (is_Some (fs s !! f))); run; [|by exists []].
  destruct (backups_path s) as [b|]; run; [|by exists []].
  repeat (match goal with
          | |- context [decide ?P] => destruct (decide P); run
          | |- context [match ?m !! ?k with _ => _ end] =>
              destruct (m !! k) as [[?|]|]; run
          end);
    rewrite <- app_assoc; by eexists.
Qed.

(** C7.  [install_latest_version] announces the installation, starts a
    fresh backup session, backs up [d3dx.ini] when it is there, moves the
    downloaded contents into the importer path, and then restores
    [d3dx.ini] exactly when [overwrite_ini] is off; with [overwrite_ini]
    on it ends with the move. *)
Theorem install_latest_version_sequence (clean : bool) (s s2 s3 : State Content) :
  let s0 := (Fire InitializeInstallation s).2 in
  let s1 := (initialize_backup s0).2 in
  let ini := d3dx_ini_path (config s1) in
  let root := div_str (App_Backups host)
                (metadata_package_name host +:+ " " +:+ now s) in
  let dst := importer_path (Importer (config s2)) in
  backup ini s1 = (Ok tt, s2) →
  move_contents (downloaded_asset_path host) dst s2 = (Ok tt, s3) →
  trace s1 = trace s ++ [Fired InitializeInstallation; Now]
  ∧ backups_path s1 = Some root
  ∧ trace s2 = trace s1 ++
      (if bool_decide (is_Some (fs s1 !! ini))
       then [PathExists ini; VerifyPath (Some root);
             Copy2 ini (div_str root (name ini))]
       else [PathExists ini])
  ∧ trace s3 = trace s2 ++ [MoveContents (downloaded_asset_path host) dst]
  ∧ install_latest_version clean s
    = (if overwrite_ini (Importer (config s3)) then (Ok tt, s3)
       else restore ini s3)
  ∧ ∃ t, trace (restore ini s3).2 = trace s3 ++ PathExists ini :: t.
Proof.
  intros s0 s1 ini root dst Hbk Hmv.
  assert (Hs1 : (Fire InitializeInstallation;; initialize_backup) s = (Ok tt, s1)).
  { reflexivity. }
  assert (Ht1 : trace s1 = trace s ++ [Fired InitializeInstallation; Now]).
  { subst s1 s0. rewrite Fire_run, initialize_backup_run. cbn.
    by rewrite <- app_assoc. }
  assert (Hb1 : backups_path s1 = Some root).
  { subst s1 s0. by rewrite Fire_run, initialize_backup_run. }
  split; [done|]. split; [done|].
  split; [rewrite <- Hb1; exact (proj2 (backup_ok_trace _ _ _ Hbk))|].
  split; [pose proof (move_contents_trace (downloaded_asset_path host) dst s2) as E;
          by rewrite Hmv in E|].
  split; [|apply restore_trace].
  unfold install_latest_version.
  rewrite (bind_ok _ _ s s0 tt) by reflexivity.
  rewrite (bind_ok _ _ s0 s1 tt) by reflexivity.
  rewrite (bind_ok get_config _ s1 s1 (config s1)) by reflexivity.
  rewrite (bind_ok _ _ _ _ _ Hbk).
  rewrite (bind_ok get_config _ s2 s2 (config s2)) by reflexivity.
  rewrite (bind_ok _ _ _ _ _ Hmv).
  rewrite (bind_ok get_config _ s3 s3 (config s3)) by reflexivity.
  by destruct (overwrite_ini _).
Qed.


Lemma bind_ok_inv {A B} (m : M Content A) (f : A → M Content B) (s s1 : State Content) (b : B) :
  (m ≫= f) s = (Ok b, s1) → ∃ a s', m s = (Ok a, s') ∧ f a s' = (Ok b, s1).
Proof.
  unfold mbind, M_bind. destruct (m s) as [[a|e] s']; [eauto|discriminate].
Qed.

(** *** start_game: the game path and its fallback *)

Lemma resolve_configured_ok (s s' : State Content) (r : Path * Path) :
  configured_game_path s = (Ok r, s') → resolve_game_path s = (Ok (Some r), s').
Proof.
  intros H. unfold resolve_game_path, try_except.
  by rewrite (bind_ok _ _ _ _ _ H).
Qed.

Lemma resolve_autodetected_ok (s s2 s3 : State Content) (e : Exception) (r : Path * Path) :
  configured_game_path s = (Raise e, s2) →
  autodetected_game_path s2 = (Ok r, s3) →
  resolve_game_path s = (Ok (Some r), s3).
Proof.
  intros H1 H2. unfold resolve_game_path, try_except.
  rewrite (bind_raise _ _ _ _ _ H1). by rewrite (bind_ok _ _ _ _ _ H2).
Qed.

Lemma resolve_open_settings (s s2 s3 : State Content) (e e' : Exception) :
  configured_game_path s = (Raise e, s2) →
  autodetected_game_path s2 = (Raise e', s3) →
  resolve_game_path s = (Ok None, (Fire OpenSettings s3).2).
Proof.
  intros H1 H2. unfold resolve_game_path, try_except.
  rewrite (bind_raise _ _ _ _ _ H1). by rewrite (bind_raise _ _ _ _ _ H2).
Qed.

(** The autodetected folder is the game path that comes back, and it is
    what the configuration holds from then on. *)
Lemma autodetected_game_path_persists (s s3 : State Content) (game_path exe : Path) :
  autodetected_game_path s = (Ok (game_path, exe), s3) →
  game_folder (Importer (config s3)) = str_of host game_path.
Proof.
  unfold autodetected_game_path, autodetect_game_folder, validate_game_path,
    validate_game_exe_path. run.
  destruct (autodetect_game_folder_impl impl _) as [[folder|?] w]; run;
    [|discriminate].
  destruct (is_absolute folder); run; [|discriminate].
  destruct (bool_decide (is_Some (w.2 !! folder))); run; [|discriminate].
  destruct (w.2 !! folder) as [[?|]|]; run; try discriminate.
  destruct (validate_game_exe_path_impl impl folder _) as [[x|?] w']; run;
    [|discriminate].
  by intros [= <- <- <-].
Qed.

(** The fallback asks the integration for the game folder once. *)

Lemma autodetected_game_path_trace (s : State Content) :
  ∃ t, trace (autodetected_game_path s).2 = trace s ++ AutodetectGameFolder :: t
       ∧ AutodetectGameFolder ∉ t.
Proof.
  unfold autodetected_game_path, autodetect_game_folder, validate_game_path,
    validate_game_exe_path. run.
  destruct (autodetect_game_folder_impl impl _) as [[folder|?] w]; run;
    [|exists []; split; [done|notin]].
  destruct (is_absolute folder); run;
    [|exists []; split; [done|notin]].
  destruct (bool_decide (is_Some (w.2 !! folder))); run;
    [|rewrite <- app_assoc; eexists; split; [done|notin]].
  destruct (w.2 !! folder) as [[?|]|]; run;
    try (rewrite <- !app_assoc; eexists; split; [done|notin]).
  destruct (validate_game_exe_path_impl impl folder _) as [[x|?] w']; run;
    rewrite <- !app_assoc; eexists; (split; [done|notin]).
Qed.

(** The fallback, step by step.  When it passes, the folder is the one
    the integration found, it has gone through [validate_game_path], and
    its executable is the one [validate_game_exe_path] gave for it. *)
Lemma autodetected_game_path_ok (s s3 : State Content) (game_path exe : Path) :
  let found := autodetect_game_folder s in
  let checked := logged [PathExists game_path; PathIsDir game_path] found.2 in
  let located := validate_game_exe_path game_path checked in
  autodetected_game_path s = (Ok (game_path, exe), s3) →
  found.1 = Ok game_path
  ∧ validate_game_path (OfPath game_path) found.2 = (Ok game_path, checked)
  ∧ is_absolute game_path = true
  ∧ fs found.2 !! game_path = Some Dir
  ∧ located.1 = Ok exe
  ∧ s3 = (set_config_game_folder (str_of host game_path) located.2).2
  ∧ trace s3 = trace s ++ [AutodetectGameFolder; PathExists game_path;
                           PathIsDir game_path; ValidateGameExePath game_path].
Proof.
  cbv zeta.
  unfold autodetected_game_path, autodetect_game_folder, validate_game_path,
    validate_game_exe_path. run.
  destruct (autodetect_game_folder_impl impl _) as [[folder|?] w]; run;
    [|discriminate].
  destruct (is_absolute folder) eqn:Ea; run; [|discriminate].
  destruct (w.2 !! folder) as [[?|]|] eqn:El; run; rewrite ?El; run;
    try discriminate.
  destruct (validate_game_exe_path_impl impl folder _) as [[x|?] w'] eqn:Ex; run;
    [|discriminate].
  intros [= <- <- <-].
  repeat (first [rewrite Ea | rewrite El | rewrite Ex]; run).
  unfold logged. cbn. rewrite <- !app_assoc. cbn. by repeat split.
Qed.

(** When it fails, one of the three steps has raised. *)
Lemma autodetected_game_path_raise (s s3 : State Content) (e : Exception) :
  let found := autodetect_game_folder s in
  autodetected_game_path s = (Raise e, s3) →
  found.1 = Raise e
  ∨ ∃ folder,
      found.1 = Ok folder
      ∧ ((validate_game_path (OfPath folder) found.2).1 = Raise e
         ∨ ∃ checked,
             validate_game_path (OfPath folder) found.2 = (Ok folder, checked)
             ∧ (validate_game_exe_path folder checked).1 = Raise e).
Proof.
  cbv zeta.
  unfold autodetected_game_path, autodetect_game_folder, validate_game_path,
    validate_game_exe_path. run.
  destruct (autodetect_game_folder_impl impl _) as [[folder|?] w]; run;
    [|intros [= <- <-]; by left].
  right. exists folder. split; [done|]. revert H.
  destruct (is_absolute folder) eqn:Ea; run; [|intros [= <- <-]; by left].
  destruct (w.2 !! folder) as [[?|]|] eqn:El; run; rewrite ?El; run;
    try (intros [= <- <-]; by left).
  destruct (validate_game_exe_path_impl impl folder _) as [[x|?] w'] eqn:Ex; run;
    [discriminate|].
  intros [= <- <-]. right. eexists. split; [reflexivity|]. cbn. by rewrite Ex.
Qed.

(** What makes the configured folder fail: its validation, or the search
    for its executable. *)
Lemma configured_game_path_raise (s s2 : State Content) (e : Exception) :
  let folder := OfStr (game_folder (Importer (config s))) in
  configured_game_path s = (Raise e, s2) →
  (validate_game_path folder s).1 = Raise e
  ∨ ∃ game_path checked,
      validate_game_path folder s = (Ok game_path, checked)
      ∧ (validate_game_exe_path game_path checked).1 = Raise e.
Proof.
  cbv zeta.
  unfold configured_game_path, validate_game_path, validate_game_exe_path. run.
  set (p := PathOf host (game_folder (Importer (config s)))).
  destruct (is_absolute p) eqn:Ea; run; [|intros [= <- <-]; by left].
  destruct (fs s !! p) as [[?|]|] eqn:El; run; rewrite ?El; run;
    try (intros [= <- <-]; by left).
  destruct (validate_game_exe_path_impl impl p _) as [[x|?] w'] eqn:Ex; run;
    [discriminate|].
  intros [= <- <-]. right. eexists _, _. split; [reflexivity|]. cbn. by rewrite Ex.
Qed.

(** C4.  When the configured game folder does not pass (its validation
    or the search for its executable raises), [start_game] tries the
    autodetected folder, once: it asks the integration for the folder,
    validates it with [validate_game_path] and looks for its executable
    with [validate_game_exe_path], in that order.  If all three pass, the
    autodetected folder is in the configuration and the launch goes on
    with it and its executable; if one of them raises, the open-settings
    request is fired and [start_game] returns normally, whatever the two
    exceptions were. *)
Theorem start_game_autodetect_fallback (s s1 s2 : State Content) (e : Exception) :
  let configured := OfStr (game_folder (Importer (config s1))) in
  let found := autodetect_game_folder s2 in
  (validate_package_files;; update_d3dx_ini) s = (Ok tt, s1) →
  configured_game_path s1 = (Raise e, s2) →
  ((validate_game_path configured s1).1 = Raise e
   ∨ ∃ game_path checked,
       validate_game_path configured s1 = (Ok game_path, checked)
       ∧ (validate_game_exe_path game_path checked).1 = Raise e)
  ∧ (∀ game_path exe s3,
     autodetected_game_path s2 = (Ok (game_path, exe), s3) →
     let checked := logged [PathExists game_path; PathIsDir game_path] found.2 in
     let located := validate_game_exe_path game_path checked in
     found.1 = Ok game_path
     ∧ validate_game_path (OfPath game_path) found.2 = (Ok game_path, checked)
     ∧ is_absolute game_path = true
     ∧ fs found.2 !! game_path = Some Dir
     ∧ located.1 = Ok exe
     ∧ s3 = (set_config_game_folder (str_of host game_path) located.2).2
     ∧ trace s3 = trace s2 ++ [AutodetectGameFolder; PathExists game_path;
                               PathIsDir game_path; ValidateGameExePath game_path]
     ∧ game_folder (Importer (config s3)) = str_of host game_path
     ∧ start_game s
       = (initialize_game_launch game_path;; Fire (StartAndInject exe)) s3)
  ∧ (∀ e' s3,
     autodetected_game_path s2 = (Raise e', s3) →
     (found.1 = Raise e'
      ∨ ∃ folder,
          found.1 = Ok folder
          ∧ ((validate_game_path (OfPath folder) found.2).1 = Raise e'
             ∨ ∃ checked,
                 validate_game_path (OfPath folder) found.2 = (Ok folder, checked)
                 ∧ (validate_game_exe_path folder checked).1 = Raise e'))
     ∧ start_game s = (Ok tt, (Fire OpenSettings s3).2)
     ∧ trace (Fire OpenSettings s3).2 = trace s3 ++ [Fired OpenSettings])
  ∧ (∃ t, trace (autodetected_game_path s2).2
          = trace s2 ++ AutodetectGameFolder :: t
          ∧ AutodetectGameFolder ∉ t).
Proof.
  intros configured found Hpre Hcfg.
  pose proof Hpre as Hpre'.
  apply bind_ok_inv in Hpre' as ([] & s' & Hvpf & Hupd).
  split; [exact (configured_game_path_raise s1 s2 e Hcfg)|].
  split; [|split].
  - intros game_path exe s3 Hauto checked located.
    destruct (autodetected_game_path_ok s2 s3 game_path exe Hauto)
      as (Hf & Hv & Ha & Hd & Hx & Hs & Ht).
    do 7 (split; [done|]). split.
    + by apply (autodetected_game_path_persists s2 s3 game_path exe).
    + unfold start_game.
      rewrite (bind_ok _ _ _ _ _ Hvpf), (bind_ok _ _ _ _ _ Hupd).
      by rewrite (bind_ok _ _ _ _ _ (resolve_autodetected_ok _ _ _ _ _ Hcfg Hauto)).
  - intros e' s3 Hauto.
    split; [exact (autodetected_game_path_raise s2 s3 e' Hauto)|].
    split; [|done].
    unfold start_game.
    rewrite (bind_ok _ _ _ _ _ Hvpf), (bind_ok _ _ _ _ _ Hupd).
    by rewrite (bind_ok _ _ _ _ _ (resolve_open_settings _ _ _ _ _ Hcfg Hauto)).
  - apply autodetected_game_path_trace.
Qed.


(** *** Computations only add to the trace *)


Lemma extends_ret {A} (a : A) : extends (Content:=Content) (mret a).
Proof. intros s. exists []. cbn. by rewrite app_nil_r. Qed.

Lemma extends_raise {A} (e : Exception) : extends (Content:=Content) (raise (A:=A) e).
Proof. intros s. exists []. cbn. by rewrite app_nil_r. Qed.

Lemma extends_lift {A} (r : Result A) : extends (Content:=Content) (lift r).
Proof. intros s. exists []. cbn. by rewrite app_nil_r. Qed.

Lemma extends_log (e : Effect) : extends (Content:=Content) (log e).
Proof. intros s. by exists [e]. Qed.

Lemma extends_get_config : extends (Content:=Content) get_config.
Proof. intros s. exists []. cbn. by rewrite app_nil_r. Qed.

Lemma extends_on_world {A} (f : World Content → Result A * World Content) : extends (Content:=Content) (on_world f).
Proof. intros s. exists []. cbn. by rewrite app_nil_r. Qed.

Lemma extends_state {A} (m : M Content A) :
  (∀ s, trace (m s).2 = trace s) → extends m.
Proof. intros H s. exists []. by rewrite H, app_nil_r. Qed.

Lemma extends_bind {A B} (m : M Content A) (f : A → M Content B) :
  extends m → (∀ a, extends (f a)) → extends (m ≫= f).
Proof.
  intros Hm Hf s. unfold mbind, M_bind.
  destruct (Hm s) as [t1 H1]. destruct (m s) as [[a|e] s']; cbn in *.
  - destruct (Hf a s') as [t2 H2]. exists (t1 ++ t2).
    by rewrite H2, H1, app_assoc.
  - by exists t1.
Qed.

Lemma extends_try {A} (m : M Content A) (h : Exception → M Content A) :
  extends m → (∀ e, extends (h e)) → extends (try_except m h).
Proof.
  intros Hm Hh s. unfold try_except.
  destruct (Hm s) as [t1 H1]. destruct (m s) as [[a|e] s']; cbn in *.
  - by exists t1.
  - destruct (Hh e s') as [t2 H2]. exists (t1 ++ t2).
    by rewrite H2, H1, app_assoc.
Qed.

Lemma extends_if {A} (b : bool) (m1 m2 : M Content A) :
  extends m1 → extends m2 → extends (if b then m1 else m2).
Proof. by destruct b. Qed.

Lemma extends_Fire (e : Event) : extends (Content:=Content) (Fire e).
Proof. apply extends_bind; [apply extends_log|intros; apply extends_on_world]. Qed.

Lemma extends_path_exists (p : Path) : extends (Content:=Content) (path_exists p).
Proof. intros s. by exists [PathExists p]. Qed.

Lemma extends_path_is_dir (p : Path) : extends (Content:=Content) (path_is_dir p).
Proof. intros s. by exists [PathIsDir p]. Qed.

Lemma extends_open_write (p : Path) (c : Content) : extends (Content:=Content) (open_write p c).
Proof.
  intros s. exists [OpenWrite p]. unfold open_write. run.
  by destruct (fs s !! p) as [[?|]|].
Qed.

Lemma extends_validate_game_path (x : PathLike) : extends (Content:=Content) (validate_game_path x).
Proof.
  unfold validate_game_path.
  apply extends_if; [apply extends_raise|].
  apply extends_bind; [apply extends_path_exists|intros e].
  apply extends_if; [apply extends_raise|].
  apply extends_bind; [apply extends_path_is_dir|intros d].
  apply extends_if; [apply extends_raise|apply extends_ret].
Qed.

Lemma extends_validate_game_exe_path (p : Path) : extends (Content:=Content) (validate_game_exe_path p).
Proof. apply extends_bind; [apply extends_log|intros; apply extends_on_world]. Qed.

Lemma extends_resolve_game_path : extends (Content:=Content) resolve_game_path.
Proof.
  unfold resolve_game_path, configured_game_path, autodetected_game_path,
    autodetect_game_folder.
  repeat first
    [ apply extends_try | apply extends_bind | intro
    | apply extends_get_config | apply extends_validate_game_path
    | apply extends_validate_game_exe_path | apply extends_ret
    | apply extends_Fire | apply extends_log | apply extends_on_world
    | by apply extends_state ].
Qed.

(** The launch steps after the INI update. *)
Lemma extends_launch :
  extends (Content:=Content) (r ← resolve_game_path;
           match r with
           | None => mret tt
           | Some (game_path, game_exe_path) =>
               initialize_game_launch game_path;;
               Fire (StartAndInject game_exe_path)
           end).
Proof.
  apply extends_bind; [apply extends_resolve_game_path|].
  intros [[p x]|]; [|apply extends_ret].
  unfold initialize_game_launch.
  repeat first [ apply extends_bind | intro | apply extends_log
               | apply extends_on_world | apply extends_Fire ].
Qed.

(** A computation that has got as far as [pre] keeps that prefix
    whatever follows. *)
Lemma bind_keeps_prefix {A B} (m : M Content A) (f : A → M Content B) (s : State Content)
    (pre : list Effect) :
  (∃ t, trace (m s).2 = trace s ++ pre ++ t) →
  (∀ a, extends (f a)) →
  ∃ t, trace ((m ≫= f) s).2 = trace s ++ pre ++ t.
Proof.
  intros [t1 H1] Hf. unfold mbind, M_bind.
  destruct (m s) as [[a|e] s']; cbn in *; [|by exists t1].
  destruct (Hf a s') as [t2 H2]. exists (t1 ++ t2).
  by rewrite H2, H1, <- !app_assoc.
Qed.

(** [update_d3dx_ini] announces itself and opens [d3dx.ini] before
    anything else. *)
Lemma update_d3dx_ini_begins (s : State Content) :
  let status := StatusUpdate "Updating d3dx.ini..." in
  ∃ t, trace (update_d3dx_ini s).2
       = trace s ++ [Fired status;
                     OpenRead (d3dx_ini_path (config (Fire status s).2))] ++ t.
Proof.
  intros status. unfold update_d3dx_ini. fold status.
  rewrite (bind_ok _ _ _ _ _ (Fire_run status s)).
  rewrite Fire_run. cbn [snd].
  set (s1 := set_world _ _).
  rewrite (bind_ok get_config _ s1 s1 (config s1)) by reflexivity.
  assert (Ht : trace s1 = trace s ++ [Fired status]) by done.
  set (ini := d3dx_ini_path (config s1)).
  destruct (fs s1 !! ini) as [[c|]|] eqn:E.
  - rewrite (bind_ok _ _ s1 (logged [OpenRead ini] s1) c)
      by (unfold open_read; run; by rewrite E).
    set (k := (_ ≫= _)).
    assert (Hk : extends k).
    { apply extends_bind; [apply extends_lift|intros i].
      apply extends_if; [apply extends_open_write|apply extends_ret]. }
    destruct (Hk (logged [OpenRead ini] s1)) as [t Hk'].
    exists t. rewrite Hk'. cbn. by rewrite <- !app_assoc.
  - rewrite (bind_raise _ _ s1 (logged [OpenRead ini] s1) (PermissionError ini))
      by (unfold open_read; run; by rewrite E).
    exists []. cbn. by rewrite <- !app_assoc.
  - rewrite (bind_raise _ _ s1 (logged [OpenRead ini] s1) (FileNotFoundError ini))
      by (unfold open_read; run; by rewrite E).
    exists []. cbn. by rewrite <- !app_assoc.
Qed.


(** *** start_game: the integrity check *)


Lemma Call_run (e : Event) (s : State Content) :
  Call e s
  = (Ok (respond host e (config s, fs s)),
     set_world (dispatch host e (config s, fs s))
       (logged [Called e (respond host e (config s, fs s))] s)).
Proof. reflexivity. Qed.

(** C2, as the code has it.  With [d3dx.ini] missing, [start_game] shows
    the modal confirm dialog.  On a refusal it raises CorruptInstallation
    there and then.  On an acceptance it fires the forced-reinstall
    request for this package and goes on to the INI update: the status
    update is fired and [d3dx.ini] is opened for reading next; if the
    file is still missing then, that open fails with a file-not-found
    error, which is what the caller gets. *)
Theorem start_game_missing_ini (s : State Content) :
  let ini := d3dx_ini_path (config s) in
  let dialog := ShowError true "Restore" "Cancel" (damaged_message (config s) ini) in
  let answer := respond host dialog (config s, fs s) in
  let request := Update true true true [metadata_package_name host] in
  let status := StatusUpdate "Updating d3dx.ini..." in
  let s1 := (Call dialog (logged [PathExists ini] s)).2 in
  let s2 := (Fire request s1).2 in
  let s3 := (Fire status s2).2 in
  let ini' := d3dx_ini_path (config s3) in
  fs s !! ini = None →
  trace s1 = trace s ++ [PathExists ini; Called dialog answer]
  ∧ (answer = false → start_game s = (Raise (CorruptInstallation ini), s1))
  ∧ (answer = true →
       (∃ t, trace (start_game s).2
             = trace s ++ [PathExists ini; Called dialog true; Fired request;
                           Fired status; OpenRead ini'] ++ t)
       ∧ (fs s3 !! ini' = None →
            start_game s
            = (Raise (FileNotFoundError ini'), logged [OpenRead ini'] s3))).
Proof.
  intros ini dialog answer request status s1 s2 s3 ini' Hmiss.
  assert (Ht1 : trace s1 = trace s ++ [PathExists ini; Called dialog answer]).
  { subst s1. rewrite Call_run. cbn. by rewrite <- app_assoc. }
  assert (Hvpf : validate_package_files s
                 = if answer then (Ok tt, s2)
                   else (Raise (CorruptInstallation ini), s1)).
  { unfold validate_package_files.
    rewrite (bind_ok get_config _ s s (config s)) by reflexivity. fold ini.
    rewrite (bind_ok _ _ s (logged [PathExists ini] s) false)
      by (unfold path_exists; run; by rewrite Hmiss).
    cbn [negb].
    rewrite (bind_ok get_config _ (logged [PathExists ini] s)
               (logged [PathExists ini] s) (config s)) by reflexivity.
    fold dialog.
    rewrite (bind_ok _ _ _ _ _ (Call_run dialog (logged [PathExists ini] s))).
    change (respond host dialog _) with answer.
    change (set_world _ _) with s1.
    by destruct answer. }
  split; [done|]. split.
  - intros Ha. rewrite Ha in Hvpf. unfold start_game.
    by rewrite (bind_raise _ _ _ _ _ Hvpf).
  - intros Ha. rewrite Ha in Hvpf, Ht1.
    assert (Ht2 : trace s2 = trace s ++ [PathExists ini; Called dialog true;
                                         Fired request]).
    { subst s2. rewrite Fire_run. cbn. by rewrite Ht1, <- app_assoc. }
    unfold start_game. rewrite (bind_ok _ _ _ _ _ Hvpf). split.
    + destruct (bind_keeps_prefix update_d3dx_ini
                  (λ _, r ← resolve_game_path;
                        match r with
                        | None => mret tt
                        | Some (game_path, game_exe_path) =>
                            initialize_game_launch game_path;;
                            Fire (StartAndInject game_exe_path)
                        end)
                  s2 [Fired status; OpenRead ini']) as [t Ht].
      * apply update_d3dx_ini_begins.
      * intros _. apply extends_launch.
      * exists t. rewrite Ht, Ht2. by rewrite <- !app_assoc.
    + intros Hgone.
      apply bind_raise. unfold update_d3dx_ini. fold status.
      rewrite (bind_ok _ _ s2 s3 tt) by reflexivity.
      rewrite (bind_ok get_config _ s3 s3 (config s3)) by reflexivity.
      fold ini'. apply bind_raise. unfold open_read. run. by rewrite Hgone.
Qed.

(** *** update_d3dx_ini *)



End PackageFacts.

(** * Further properties *)

Section EffectFacts.

Context {Content : Type} {host : Host Content}.

(** ** Effects of one kind *)

Lemma emits_quiet {A} (P : Effect → Prop) (m : M Content A) :
  (∀ s, trace (m s).2 = trace s) → emits P m.
Proof. intros H s. exists []. by rewrite H, app_nil_r. Qed.

Lemma emits_ret {A} (P : Effect → Prop) (a : A) :
  emits (Content:=Content) P (mret a).
Proof. by apply emits_quiet. Qed.

Lemma emits_raise {A} (P : Effect → Prop) (e : Exception) :
  emits (Content:=Content) P (raise (A:=A) e).
Proof. by apply emits_quiet. Qed.

Lemma emits_lift {A} (P : Effect → Prop) (r : Result A) :
  emits (Content:=Content) P (lift r).
Proof. by apply emits_quiet. Qed.

Lemma emits_on_world {A} (P : Effect → Prop)
    (f : World Content → Result A * World Content) :
  emits P (on_world f).
Proof. by apply emits_quiet. Qed.

Lemma emits_log (P : Effect → Prop) (e : Effect) :
  P e → emits (Content:=Content) P (log e).
Proof. intros H s. exists [e]. split; [done|]. by apply Forall_singleton. Qed.

Lemma emits_bind {A B} (P : Effect → Prop) (m : M Content A) (f : A → M Content B) :
  emits P m → (∀ a, emits P (f a)) → emits P (m ≫= f).
Proof.
  intros Hm Hf s. unfold mbind, M_bind.
  destruct (Hm s) as (t1 & H1 & F1). destruct (m s) as [[a|e] s']; cbn in *.
  - destruct (Hf a s') as (t2 & H2 & F2). exists (t1 ++ t2).
    rewrite H2, H1, app_assoc. split; [done|]. by apply Forall_app.
  - by exists t1.
Qed.

Lemma emits_try {A} (P : Effect → Prop) (m : M Content A)
    (h : Exception → M Content A) :
  emits P m → (∀ e, emits P (h e)) → emits P (try_except m h).
Proof.
  intros Hm Hh s. unfold try_except.
  destruct (Hm s) as (t1 & H1 & F1). destruct (m s) as [[a|e] s']; cbn in *.
  - by exists t1.
  - destruct (Hh e s') as (t2 & H2 & F2). exists (t1 ++ t2).
    rewrite H2, H1, app_assoc. split; [done|]. by apply Forall_app.
Qed.

Lemma emits_if {A} (P : Effect → Prop) (b : bool) (m1 m2 : M Content A) :
  emits P m1 → emits P m2 → emits P (if b then m1 else m2).
Proof. by destruct b. Qed.

Lemma emits_weaken {A} (P Q : Effect → Prop) (m : M Content A) :
  (∀ e, P e → Q e) → emits P m → emits Q m.
Proof.
  intros HPQ Hm s. destruct (Hm s) as (t & Ht & F). exists t.
  split; [done|]. by apply (Forall_impl P).
Qed.

Lemma emits_Fire (P : Effect → Prop) (e : Event) :
  P (Fired e) → emits P (Fire e).
Proof.
  intros H. apply emits_bind; [by apply emits_log|intros; apply emits_on_world].
Qed.

Lemma emits_Call (P : Effect → Prop) (e : Event) :
  (∀ a, P (Called e a)) → emits P (Call e).
Proof.
  intros H s. rewrite Call_run. eexists [_]. split; [done|].
  apply Forall_singleton, H.
Qed.

Lemma emits_path_exists (P : Effect → Prop) (p : Path) :
  P (PathExists p) → emits (Content:=Content) P (path_exists p).
Proof. intros H s. exists [PathExists p]. split; [done|]. by apply Forall_singleton. Qed.

Lemma emits_path_is_dir (P : Effect → Prop) (p : Path) :
  P (PathIsDir p) → emits (Content:=Content) P (path_is_dir p).
Proof. intros H s. exists [PathIsDir p]. split; [done|]. by apply Forall_singleton. Qed.

Lemma emits_open_read (P : Effect → Prop) (p : Path) :
  P (OpenRead p) → emits (Content:=Content) P (open_read p).
Proof.
  intros H s. exists [OpenRead p]. split; [|by apply Forall_singleton].
  unfold open_read. run. by destruct (fs s !! p) as [[?|]|].
Qed.

Lemma emits_open_write (P : Effect → Prop) (p : Path) (c : Content) :
  P (OpenWrite p) → emits P (open_write p c).
Proof.
  intros H s. exists [OpenWrite p]. split; [|by apply Forall_singleton].
  unfold open_write. run. by destruct (fs s !! p) as [[?|]|].
Qed.

Lemma emits_verify_path (P : Effect → Prop) (p : option Path) :
  P (VerifyPath p) → emits (Content:=Content) P (verify_path p).
Proof.
  intros H s. exists [VerifyPath p]. split; [|by apply Forall_singleton].
  unfold verify_path. run. destruct p as [d|]; [|done].
  by destruct (fs s !! d) as [[?|]|].
Qed.

Lemma emits_copy2 (P : Effect → Prop) (src dst : Path) :
  P (Copy2 src dst) → emits P (copy2 src dst).
Proof.
  intros H s. exists [Copy2 src dst]. split; [|by apply Forall_singleton].
  unfold copy2. run.
  repeat (match goal with
          | |- context [decide ?Q] => destruct (decide Q); run
          | |- context [match ?m !! ?k with _ => _ end] =>
              destruct (m !! k) as [[?|]|]; run
          end); done.
Qed.

Lemma emits_validate_game_path (P : Effect → Prop) (x : PathLike) :
  (∀ p, P (PathExists p)) → (∀ p, P (PathIsDir p)) →
  emits P (validate_game_path x).
Proof.
  intros H1 H2. unfold validate_game_path.
  apply emits_if; [apply emits_raise|].
  apply emits_bind; [by apply emits_path_exists|intros e].
  apply emits_if; [apply emits_raise|].
  apply emits_bind; [by apply emits_path_is_dir|intros d].
  apply emits_if; [apply emits_raise|apply emits_ret].
Qed.

End EffectFacts.

(** Goals of the shape [emits P m], by the structure of [m]. *)
Ltac emits_step :=
  first
    [ apply emits_bind | apply emits_try | apply emits_if
    | apply emits_ret | apply emits_raise | apply emits_lift
    | apply emits_on_world
    | apply emits_log | apply emits_Fire | apply emits_Call
    | apply emits_path_exists | apply emits_path_is_dir
    | apply emits_open_read | apply emits_open_write
    | apply emits_verify_path | apply emits_copy2
    | apply emits_validate_game_path
    | (apply emits_quiet; intros; reflexivity)
    | match goal with |- ∀ _, _ => intro end
    | match goal with |- emits _ (match ?x with _ => _ end) => destruct x end
    | exact I ].

Ltac emits_all := repeat emits_step.

Section PackageMoreFacts.

Context {Content : Type} {host : Host Content} {impl : Integration Content}.

Lemma lookup_configured : emits lookup_effect configured_game_path.
Proof.
  unfold configured_game_path, validate_game_exe_path, get_config. emits_all.
Qed.

Lemma lookup_autodetected : emits lookup_effect autodetected_game_path.
Proof.
  unfold autodetected_game_path, autodetect_game_folder, validate_game_exe_path,
    set_config_game_folder.
  emits_all.
Qed.

Lemma integrity_validate_package_files : emits integrity_effect validate_package_files.
Proof. unfold validate_package_files, get_config. emits_all. Qed.

Lemma integrity_update_d3dx_ini : emits integrity_effect update_d3dx_ini.
Proof. unfold update_d3dx_ini, get_config. emits_all. Qed.

(** ** validate_game_path and importer_path *)

(** X1.  [validate_game_path] only looks: the configuration, the files
    and the backup root are as before whatever the outcome; and a path it
    returns is the path of its argument, absolute, and a directory that
    exists. *)
Theorem validate_game_path_sound (game_folder : PathLike) (s : State Content) :
  let r := validate_game_path game_folder s in
  config r.2 = config s ∧ fs r.2 = fs s ∧ backups_path r.2 = backups_path s
  ∧ ∀ p, r.1 = Ok p →
      p = Path_ game_folder ∧ is_absolute p = true ∧ fs s !! p = Some Dir.
Proof.
  unfold validate_game_path.
  destruct (is_absolute (Path_ game_folder)) eqn:Ea; run; [|done].
  destruct (fs s !! Path_ game_folder) as [[c|]|] eqn:El; run;
    rewrite ?El; run; try done.
  repeat split; try done;
    match goal with H : Ok _ = Ok _ |- _ => by injection H as <- end.
Qed.

(** X2.  With an absolute application root, [importer_path] is absolute
    unless [importer_folder] has a drive and no root and the drive is not
    the root's, drives compared without regard to case (such as [D:mods]
    under [C:\app]): that one folder is returned as it is.  A folder
    with no root and no other drive ([mods], [c:mods]) is resolved under
    the application root, on the root's drive. *)
Theorem importer_path_absolute (c : ModelImporterConfig) :
  let folder := PathOf host (importer_folder c) in
  let app := App_Root host in
  let other_drive :=
    root folder = "" ∧ drive folder ≠ ""
    ∧ lower (drive folder) ≠ lower (drive app) in
  is_absolute app = true →
  (is_absolute (importer_path c) = true ↔ ¬ other_drive)
  ∧ (other_drive → importer_path c = folder)
  ∧ (root folder = "" →
     drive folder = "" ∨ lower (drive folder) = lower (drive app) →
     importer_path c = mkPath (drive app) (root app) (tail app ++ tail folder)).
Proof.
  intros folder app other_drive. unfold other_drive, importer_path, is_absolute, joinpath.
  fold folder app.
  destruct app as [dr rr tr], folder as [df rf tf]. cbn.
  intros Habs. apply andb_true_iff in Habs as [Hd Hr].
  apply negb_true_iff in Hd, Hr. apply String.eqb_neq in Hd, Hr.
  destruct (String.eqb_spec rf "") as [->|Hrf]; cbn.
  - rewrite andb_false_r.
    destruct (String.eqb_spec df "") as [->|Hdf]; cbn.
    + rewrite (proj2 (String.eqb_neq dr "") Hd), (proj2 (String.eqb_neq rr "") Hr).
      cbn. split; [split; [intros _ (_ & H & _); by apply H|done]|].
      split; [intros (_ & H & _); by destruct H|done].
    + destruct (String.eqb_spec (lower df) (lower dr)) as [El|El]; cbn.
      * rewrite (proj2 (String.eqb_neq dr "") Hd), (proj2 (String.eqb_neq rr "") Hr).
        cbn. split; [split; [intros _ (_ & _ & H); by apply H|done]|].
        split; [intros (_ & _ & H); by destruct H|done].
      * rewrite andb_false_r.
        split; [split; [done|intros H; by destruct H]|].
        split; [done|]. intros _ [->|E]; [by destruct Hdf|by destruct El].
  - assert (Hroot : ∀ P : Prop, ¬ (rf = "" ∧ P)) by (intros P [E _]; by apply Hrf).
    destruct (String.eqb_spec df "") as [->|Hdf]; cbn.
    + rewrite (proj2 (String.eqb_neq dr "") Hd), (proj2 (String.eqb_neq rf "") Hrf).
      cbn. split; [split; [intros _; apply Hroot|done]|].
      split; [intros [E _]; by destruct Hrf|intros E; by destruct Hrf].
    + rewrite (proj2 (String.eqb_neq df "") Hdf), (proj2 (String.eqb_neq rf "") Hrf).
      cbn. split; [split; [intros _; apply Hroot|done]|].
      split; [intros [E _]; by destruct Hrf|intros E; by destruct Hrf].
Qed.

(** ** set_default_ini_values *)

(** Two ways of calling that agree on every entry agree on the table. *)
Lemma set_default_ini_values_ext (st st' : SettingType) (v v' : scalar) :
  (∀ section opt values ini,
     set_default_ini_value st v section opt values ini
     = set_default_ini_value st' v' section opt values ini) →
  ∀ c ini name,
    set_default_ini_values c ini name st v = set_default_ini_values c ini name st' v'.
Proof.
  intros H c ini name. unfold set_default_ini_values.
  destruct (dict_get name (d3dx_ini (Importer c))) as [settings|]; [|done].
  revert ini. induction settings as [|[section options] rest IH]; intros ini; cbn;
    [done|].
  assert (Ho : ∀ ini, set_default_ini_options st v section options ini
                      = set_default_ini_options st' v' section options ini).
  { clear ini. induction options as [|[o values] more IHo]; intros ini; cbn; [done|].
    rewrite H. destruct (set_default_ini_value st' v' section o values ini); [|done].
    apply IHo. }
  rewrite Ho. by destruct (set_default_ini_options st' v' section options ini).
Qed.

(** An error of the table is the error for a missing setting or the error
    of one entry. *)
Lemma set_default_ini_values_error (Q : Exception → Prop) (st : SettingType)
    (v : scalar) (c : Config) (ini : Ini.IniHandler) (name : string) (e : Exception) :
  Q (MissingSetting name) →
  (∀ section opt values ini e,
     set_default_ini_value st v section opt values ini = Raise e → Q e) →
  set_default_ini_values c ini name st v = Raise e → Q e.
Proof.
  intros Hm Hv. unfold set_default_ini_values.
  destruct (dict_get name (d3dx_ini (Importer c))) as [settings|];
    [|by intros [= <-]].
  revert ini. induction settings as [|[section options] rest IH]; intros ini; cbn;
    [done|].
  destruct (set_default_ini_options st v section options ini) as [i1|e1] eqn:E.
  - apply IH.
  - intros [= <-]. revert ini E.
    induction options as [|[o values] more IHo]; intros ini; cbn; [done|].
    destruct (set_default_ini_value st v section o values ini) as [i2|e2] eqn:E2.
    + apply IHo.
    + intros [= <-]. by apply (Hv _ _ _ _ _ E2).
Qed.

(** X3.  A [Constant] setting does not look at the runtime value, and the
    only errors it can end in are [ValueError]s: the missing setting, a
    missing value, or a write the document refuses.  No subscript is
    taken, so no [KeyError] or [TypeError] comes out of it. *)
Theorem constant_setting_errors (c : Config) (ini : Ini.IniHandler)
    (setting_name : string) (v v' : scalar) :
  set_default_ini_values c ini setting_name Constant v
  = set_default_ini_values c ini setting_name Constant v'
  ∧ ∀ e, set_default_ini_values c ini setting_name Constant v = Raise e →
         ∃ msg, e = ValueError msg.
Proof.
  split; [by apply set_default_ini_values_ext|].
  intros e. apply (set_default_ini_values_error (λ e, ∃ msg, e = ValueError msg)).
  - by eexists.
  - intros section opt values i e'. unfold set_default_ini_value. cbn.
    destruct (decide (values = Lit SNone)); [intros [= <-]; by eexists|].
    destruct (Ini.set_option i section opt values); [|done].
    intros [= <-]. by eexists.
Qed.

(** X4.  A [Bool] setting depends on the runtime value through its truth
    value alone: two values that are both truthy, or both falsy, select the
    same entries and give the same document or the same error. *)
Theorem bool_setting_truthiness (c : Config) (ini : Ini.IniHandler)
    (setting_name : string) (v v' : scalar) :
  truthy v = truthy v' →
  set_default_ini_values c ini setting_name Bool v
  = set_default_ini_values c ini setting_name Bool v'.
Proof.
  intros H. apply set_default_ini_values_ext. intros section opt values i.
  unfold set_default_ini_value, resolve_value. by rewrite H.
Qed.

(** The five groups are all asked for. *)
Lemma project_settings_groups (c : Config) (ini doc : Ini.IniHandler) :
  project_settings c ini = Ok doc →
  Forall (λ n, is_Some (dict_get n (d3dx_ini (Importer c)))) setting_groups.
Proof.
  unfold project_settings.
  assert (Hg : ∀ i n st v d, set_default_ini_values c i n st v = Ok d →
                             is_Some (dict_get n (d3dx_ini (Importer c)))).
  { intros i n st v d. unfold set_default_ini_values.
    destruct (dict_get n _); [eauto|done]. }
  destruct (set_default_ini_values c ini "core" _ _) as [i1|] eqn:E1; [|done].
  destruct (set_default_ini_values c i1 "debug_logging" _ _) as [i2|] eqn:E2; [|done].
  destruct (set_default_ini_values c i2 "mute_warnings" _ _) as [i3|] eqn:E3; [|done].
  destruct (set_default_ini_values c i3 "enable_hunting" _ _) as [i4|] eqn:E4; [|done].
  intros E5. unfold setting_groups.
  repeat (apply Forall_cons; split; [by eapply Hg|]). apply Forall_nil_2.
Qed.

(** ** update_d3dx_ini *)

(** [update_d3dx_ini] from the state the status update leaves. *)
Lemma update_d3dx_ini_after_status (s : State Content) :
  let s0 := (Fire (StatusUpdate "Updating d3dx.ini...") s).2 in
  let ini := d3dx_ini_path (config s0) in
  update_d3dx_ini s
  = match fs s0 !! ini with
    | Some (File f) =>
        match project_settings (config s0) (IniHandler_new f) with
        | Ok doc =>
            if Ini.is_modified doc then
              (Ok tt,
               mkState (config s0) (<[ini := File (ini_to_string host doc)]> (fs s0))
                 (backups_path s0) (now s0) (trace s0 ++ [OpenRead ini; OpenWrite ini]))
            else (Ok tt, logged [OpenRead ini] s0)
        | Raise e => (Raise e, logged [OpenRead ini] s0)
        end
    | Some Dir => (Raise (PermissionError ini), logged [OpenRead ini] s0)
    | None => (Raise (FileNotFoundError ini), logged [OpenRead ini] s0)
    end.
Proof.
  intros s0 ini. unfold update_d3dx_ini.
  rewrite (bind_ok _ _ s s0 tt) by reflexivity.
  rewrite (bind_ok get_config _ s0 s0 (config s0)) by reflexivity. fold ini.
  unfold open_read, open_write. run.
  destruct (fs s0 !! ini) as [[f|]|] eqn:E; run; try done.
  destruct (project_settings (config s0) (IniHandler_new f)) as [doc|e]; run;
    [|done].
  destruct (Ini.is_modified doc); run; [|done].
  rewrite E. run. by rewrite <- !app_assoc.
Qed.

(** X5.  An update that returns has found all five setting groups in the
    configuration: with any of [core], [debug_logging], [mute_warnings],
    [enable_hunting], [dump_shaders] absent from [d3dx_ini] it raises. *)
Theorem update_d3dx_ini_needs_all_groups (s s' : State Content) :
  update_d3dx_ini s = (Ok tt, s') →
  Forall (λ n, is_Some (dict_get n (d3dx_ini (Importer (config s'))))) setting_groups.
Proof.
  rewrite update_d3dx_ini_after_status.
  set (s0 := (Fire _ s).2). set (ini := d3dx_ini_path (config s0)).
  destruct (fs s0 !! ini) as [[f|]|]; [|done|done].
  destruct (project_settings (config s0) (IniHandler_new f)) as [doc|] eqn:E; [|done].
  apply project_settings_groups in E.
  destruct (Ini.is_modified doc); by intros [= <-].
Qed.

(** X6.  An update that raises has written nothing: the files and the
    configuration are as the subscribers of the status update left them,
    whichever of the five groups failed and however many options the
    earlier ones had set in the document. *)
Theorem update_d3dx_ini_failure_writes_nothing (s s' : State Content) (e : Exception) :
  update_d3dx_ini s = (Raise e, s') →
  let w := dispatch host (StatusUpdate "Updating d3dx.ini...") (config s, fs s) in
  fs s' = w.2 ∧ config s' = w.1
  ∧ trace s' = trace s ++ [Fired (StatusUpdate "Updating d3dx.ini...");
                           OpenRead (d3dx_ini_path w.1)].
Proof.
  rewrite update_d3dx_ini_after_status. rewrite Fire_run. cbn [snd].
  set (w := dispatch host _ _). set (s0 := set_world w _).
  change (config s0) with w.1. change (fs s0) with w.2.
  destruct (w.2 !! d3dx_ini_path w.1) as [[f|]|].
  - destruct (project_settings w.1 (IniHandler_new f)) as [doc|e'];
      [by destruct (Ini.is_modified doc)|].
    intros [= <- <-]. cbn. by rewrite <- app_assoc.
  - intros [= <- <-]. cbn. by rewrite <- app_assoc.
  - intros [= <- <-]. cbn. by rewrite <- app_assoc.
Qed.

(** X7.  Whatever its outcome, [update_d3dx_ini] leaves the configuration
    and the backup root alone and touches no file other than [d3dx.ini]. *)
Theorem update_d3dx_ini_touches_only_ini (s : State Content) :
  let w := dispatch host (StatusUpdate "Updating d3dx.ini...") (config s, fs s) in
  let s' := (update_d3dx_ini s).2 in
  config s' = w.1
  ∧ backups_path s' = backups_path s
  ∧ ∀ p, p ≠ d3dx_ini_path w.1 → fs s' !! p = w.2 !! p.
Proof.
  cbv zeta. rewrite update_d3dx_ini_after_status. rewrite Fire_run. cbn [snd].
  set (w := dispatch host _ _). set (s0 := set_world w _).
  change (config s0) with w.1. change (fs s0) with w.2.
  destruct (w.2 !! d3dx_ini_path w.1) as [[f|]|]; [|done|done].
  destruct (project_settings w.1 (IniHandler_new f)) as [doc|e']; [|done].
  destruct (Ini.is_modified doc); [|done].
  cbn. split; [done|]. split; [done|]. intros p Hp. by rewrite lookup_insert_ne.
Qed.

(** ** start_game *)

Lemma bind_assoc {A B C} (m : M Content A) (f : A → M Content B)
    (g : B → M Content C) (s : State Content) :
  ((m ≫= f) ≫= g) s = (m ≫= (λ a, f a ≫= g)) s.
Proof. unfold mbind, M_bind. by destruct (m s) as [[a|e] s']. Qed.

(** [start_game] as the integrity check and the INI update, then the
    rest. *)
Lemma start_game_split (s : State Content) :
  start_game s
  = ((validate_package_files;; update_d3dx_ini)
     ≫= λ _, r ← resolve_game_path;
             match r with
             | None => mret tt
             | Some (game_path, game_exe_path) =>
                 initialize_game_launch game_path;;
                 Fire (StartAndInject game_exe_path)
             end) s.
Proof. unfold start_game. by rewrite bind_assoc. Qed.

(** Looking for the game never raises: every exception of the validation
    and of the integration ends in one of the two handlers. *)
Lemma resolve_game_path_returns (s : State Content) :
  ∃ r s', resolve_game_path s = (Ok r, s').
Proof.
  unfold resolve_game_path, try_except, mbind, M_bind.
  destruct (configured_game_path s) as [[r|e] s1]; [by eexists _, _|].
  destruct (autodetected_game_path s1) as [[r|e'] s2]; [by eexists _, _|].
  by eexists _, _.
Qed.

Lemma launch_resolve_game_path : emits launch_effect resolve_game_path.
Proof.
  unfold resolve_game_path.
  apply emits_try.
  - apply emits_bind; [|intros; apply emits_ret].
    apply (emits_weaken lookup_effect); [by intros []|apply lookup_configured].
  - intros _. apply emits_try.
    + apply emits_bind; [|intros; apply emits_ret].
      apply (emits_weaken lookup_effect); [by intros []|apply lookup_autodetected].
    + intros _. apply emits_bind; [by apply emits_Fire|intros; apply emits_ret].
Qed.

Lemma launch_integrity :
  emits launch_effect (validate_package_files;; update_d3dx_ini).
Proof.
  apply (emits_weaken integrity_effect); [by intros [[]| | | | | | | | | | | |]|].
  apply emits_bind; [apply integrity_validate_package_files|].
  intros _. apply integrity_update_d3dx_ini.
Qed.

Lemma hands_over_bind {A B} (P : Effect → Prop) (m : M Content A)
    (f : A → M Content B) :
  emits P m → (∀ a, hands_over P (f a)) → hands_over P (m ≫= f).
Proof.
  intros Hm Hf s. unfold mbind, M_bind.
  destruct (Hm s) as (t1 & H1 & F1). destruct (m s) as [[a|e] s']; cbn in *.
  - destruct (Hf a s') as (t2 & F2 & [H2|(exe & r & H2 & Hr)]).
    + exists (t1 ++ t2). split; [by apply Forall_app|]. left.
      by rewrite H2, H1, app_assoc.
    + exists (t1 ++ t2). split; [by apply Forall_app|]. right. exists exe, r.
      split; [|done]. by rewrite H2, H1, !app_assoc.
  - exists t1. split; [done|]. by left.
Qed.

(** X8.  Every effect of [start_game] but its last is an effect of the
    launch proper; it copies, moves and backs up no file and starts no
    install.  The hand-over to the injector happens at most once, as the
    last effect, and only in a call that returns. *)
Theorem start_game_hands_over_last : hands_over launch_effect start_game.
Proof.
  intros s. rewrite start_game_split. revert s.
  apply hands_over_bind; [apply launch_integrity|intros _].
  apply hands_over_bind; [apply launch_resolve_game_path|].
  intros [[p exe]|] s.
  - unfold initialize_game_launch. run.
    destruct (initialize_game_launch_impl impl p _) as [[[]|e] w]; run.
    + exists [InitializeGameLaunch p]. split; [by apply Forall_singleton|].
      right. exists exe, tt. rewrite Fire_run. cbn.
      split; [by rewrite <- app_assoc|done].
    + exists [InitializeGameLaunch p]. split; [by apply Forall_singleton|].
      by left.
  - exists []. split; [done|]. left. cbn. by rewrite app_nil_r.
Qed.

(** X9.  An exception out of [start_game] is an exception of the
    integrity check, of the INI update or of the pre-launch hook.  What
    the validation of the game folder and the methods of the integration
    that look for the game raise never reaches the caller. *)
Theorem start_game_raises_only (s s' : State Content) (e : Exception) :
  start_game s = (Raise e, s') →
  (validate_package_files;; update_d3dx_ini) s = (Raise e, s')
  ∨ ∃ s1 s2 game_path exe,
      (validate_package_files;; update_d3dx_ini) s = (Ok tt, s1)
      ∧ resolve_game_path s1 = (Ok (Some (game_path, exe)), s2)
      ∧ initialize_game_launch game_path s2 = (Raise e, s').
Proof.
  rewrite start_game_split. unfold mbind at 1, M_bind at 1.
  destruct ((validate_package_files;; update_d3dx_ini) s) as [[[]|e0] s1] eqn:E1;
    [|intros [= <- <-]; by left].
  destruct (resolve_game_path_returns s1) as (r & s2 & E2).
  rewrite (bind_ok _ _ _ _ _ E2). destruct r as [[p exe]|]; [|done].
  intros H. right. exists s1, s2, p, exe. split; [done|]. split; [done|].
  unfold mbind, M_bind in H.
  destruct (initialize_game_launch p s2) as [[[]|e1] s3] eqn:E3.
  - by rewrite Fire_run in H.
  - by injection H as <- <-.
Qed.

(** X10.  When the integrity check or the INI update raises, [start_game]
    raises the same exception at once: the game folder is not looked at,
    the integration is not called and the settings are not opened. *)
Theorem start_game_early_failure (s s' : State Content) (e : Exception) :
  (validate_package_files;; update_d3dx_ini) s = (Raise e, s') →
  start_game s = (Raise e, s')
  ∧ ∃ t, trace s' = trace s ++ t ∧ Forall integrity_effect t.
Proof.
  intros H. split.
  - rewrite start_game_split. by apply bind_raise.
  - assert (He : emits integrity_effect (validate_package_files;; update_d3dx_ini)).
    { apply emits_bind; [apply integrity_validate_package_files|].
      intros _. apply integrity_update_d3dx_ini. }
    destruct (He s) as (t & Ht & F). rewrite H in Ht. by exists t.
Qed.

(** X11.  When the configured game folder passes, [start_game] goes on
    with it: the folder is the one of the configuration, nothing is
    autodetected, and the pre-launch hook and the hand-over follow. *)
Theorem start_game_configured_folder (s s1 s2 : State Content)
    (game_path exe : Path) :
  (validate_package_files;; update_d3dx_ini) s = (Ok tt, s1) →
  configured_game_path s1 = (Ok (game_path, exe), s2) →
  game_path = PathOf host (game_folder (Importer (config s1)))
  ∧ trace s2 = trace s1 ++ [PathExists game_path; PathIsDir game_path;
                            ValidateGameExePath game_path]
  ∧ start_game s
    = (initialize_game_launch game_path;; Fire (StartAndInject exe)) s2.
Proof.
  intros Hpre Hcfg.
  assert (game_path = PathOf host (game_folder (Importer (config s1)))
          ∧ trace s2 = trace s1 ++ [PathExists game_path; PathIsDir game_path;
                                    ValidateGameExePath game_path]) as [Hp Ht].
  { revert Hcfg. unfold configured_game_path, validate_game_path,
      validate_game_exe_path. run.
    set (p := PathOf host (game_folder (Importer (config s1)))).
    destruct (is_absolute p); run; [|done].
    destruct (fs s1 !! p) as [[c|]|] eqn:El; run; rewrite ?El; run; try done.
    destruct (validate_game_exe_path_impl impl p _) as [[x|?] w]; run; [|done].
    intros [= <- <- <-]. cbn. by rewrite <- !app_assoc. }
  split; [done|]. split; [done|].
  rewrite start_game_split, (bind_ok _ _ _ _ _ Hpre).
  by rewrite (bind_ok _ _ _ _ _ (resolve_configured_ok _ _ _ Hcfg)).
Qed.

End PackageMoreFacts.

Section BaseClassFacts.

Context {Content : Type} {host : Host Content}.

(** What the base class does when asked for the game. *)
Lemma resolve_game_path_base (s : State Content) :
  ∃ t, Forall lookup_effect t
       ∧ resolve_game_path (impl := base_integration) s
         = (Ok None,
            (Fire OpenSettings (logged (t ++ [AutodetectGameFolder]) s)).2).
Proof.
  assert (Hc : ∃ e t, Forall lookup_effect t
               ∧ configured_game_path (impl := base_integration) s
                 = (Raise e, logged t s)).
  { unfold configured_game_path, validate_game_path, validate_game_exe_path. run.
    set (p := PathOf host (game_folder (Importer (config s)))).
    destruct (is_absolute p); run.
    2:{ eexists _, []. split; [done|]. unfold logged. rewrite app_nil_r.
        by destruct s. }
    destruct (fs s !! p) as [[c|]|] eqn:El; run; rewrite ?El; run.
    - eexists _, [PathExists p; PathIsDir p]. split; [by repeat constructor|].
      unfold logged. by rewrite <- app_assoc.
    - eexists _, [PathExists p; PathIsDir p; ValidateGameExePath p].
      split; [by repeat constructor|].
      unfold logged. by rewrite <- !app_assoc.
    - eexists _, [PathExists p]. split; [by repeat constructor|]. done. }
  destruct Hc as (e & t & F & Hc). exists t. split; [done|].
  assert (Ha : autodetected_game_path (impl := base_integration) (logged t s)
               = (Raise NotImplementedError,
                  logged (t ++ [AutodetectGameFolder]) s)).
  { unfold autodetected_game_path, autodetect_game_folder. run.
    unfold logged. by rewrite <- app_assoc. }
  by rewrite (resolve_open_settings _ _ _ _ _ Hc Ha).
Qed.

(** X12.  On the base class, whose four methods for the game are not
    implemented, a launch that gets past the integrity check and the INI
    update always ends by firing the open-settings request and returns
    normally: the [NotImplementedError]s are swallowed like any other
    error, and nothing is handed to the injector. *)
Theorem start_game_base_class (s s1 : State Content) :
  (validate_package_files;; update_d3dx_ini) s = (Ok tt, s1) →
  ∃ s2 t,
    start_game (impl := base_integration) s = (Ok tt, s2)
    ∧ Forall lookup_effect t
    ∧ trace s2 = trace s1 ++ t ++ [AutodetectGameFolder; Fired OpenSettings].
Proof.
  intros Hpre. destruct (resolve_game_path_base s1) as (t & F & Hr).
  eexists _, t. rewrite start_game_split, (bind_ok _ _ _ _ _ Hpre).
  rewrite (bind_ok _ _ _ _ _ Hr). split; [reflexivity|]. split; [done|].
  rewrite Fire_run. cbn. by rewrite <- !app_assoc.
Qed.

End BaseClassFacts.

Section BackupMoreFacts.

Context {Content : Type} {host : Host Content} {impl : Integration Content}.

(** ** load *)

(** X13.  Once what it inherits has returned, [load] returns normally
    whatever the validation and the integration do; it fires no event and
    shows no dialog (it only looks for the game), and when the configured
    folder fails and the autodetected one passes, the autodetected folder
    is in the configuration afterwards. *)
Theorem load_never_raises (inherited : M Content unit) (s s1 : State Content) :
  inherited s = (Ok tt, s1) →
  ∃ s2 t,
    load inherited s = (Ok tt, s2)
    ∧ trace s2 = trace s1 ++ t ∧ Forall lookup_effect t
    ∧ ∀ e sa game_path exe sb,
        configured_game_path s1 = (Raise e, sa) →
        autodetected_game_path sa = (Ok (game_path, exe), sb) →
        s2 = sb ∧ game_folder (Importer (config s2)) = str_of host game_path.
Proof.
  intros Hin. unfold load. rewrite (bind_ok _ _ _ _ _ Hin).
  destruct (lookup_configured s1) as (t1 & Ht1 & F1).
  unfold try_except at 1.
  destruct (configured_game_path s1) as [[r|e] sa] eqn:Ec.
  - rewrite (bind_ok _ _ _ _ _ Ec). cbn in Ht1.
    eexists _, t1. split; [reflexivity|]. split; [done|]. split; [done|].
    intros ? ? ? ? ? [=].
  - rewrite (bind_raise _ _ _ _ _ Ec). cbn in Ht1.
    destruct (lookup_autodetected sa) as (t2 & Ht2 & F2).
    unfold try_except.
    destruct (autodetected_game_path sa) as [[r|e'] sb] eqn:Ea.
    + rewrite (bind_ok _ _ _ _ _ Ea). cbn in Ht2.
      eexists _, (t1 ++ t2). split; [reflexivity|].
      split; [by rewrite Ht2, Ht1, app_assoc|]. split; [by apply Forall_app|].
      intros e0 sa0 p exe sb0 [= <- <-] Hb. rewrite Ea in Hb.
      injection Hb as -> <-. split; [done|].
      by apply (autodetected_game_path_persists sa sb p exe).
    + rewrite (bind_raise _ _ _ _ _ Ea). cbn in Ht2.
      eexists _, (t1 ++ t2). split; [reflexivity|].
      split; [by rewrite Ht2, Ht1, app_assoc|]. split; [by apply Forall_app|].
      intros e0 sa0 p exe sb0 [= <- <-] Hb. by rewrite Ea in Hb.
Qed.

(** ** backup and restore *)

(** X14.  [backup] never changes the file it backs up, whatever its
    outcome, nor the configuration or the backup root of the session; and
    no path other than the backup root, the place of the copy in it and
    (when a directory sits there) the place below it is touched. *)
Theorem backup_leaves_the_source (f : Path) (s : State Content) :
  let s' := (backup f s).2 in
  fs s' !! f = fs s !! f
  ∧ config s' = config s
  ∧ backups_path s' = backups_path s
  ∧ ∀ b p, backups_path s = Some b →
      p ≠ b → p ≠ div_str b (name f) →
      p ≠ div_str (div_str b (name f)) (name f) →
      fs s' !! p = fs s !! p.
Proof.
  cbv zeta. unfold backup, verify_path, copy2. run.
  destruct (fs s !! f) as [nf|] eqn:Ef; run; [|by rewrite Ef].
  destruct (backups_path s) as [b|] eqn:Eb; run; [|done].
  assert (Hcopy : ∀ files tr,
    files !! f = Some nf →
    (∀ p, p ≠ b → files !! p = fs s !! p) →
    let s' := (copy2 f (div_str b (name f))
                 (mkState (config s) files (Some b) (now s) tr)).2 in
    fs s' !! f = Some nf ∧ config s' = config s ∧ backups_path s' = Some b
    ∧ ∀ p, p ≠ b → p ≠ div_str b (name f) →
        p ≠ div_str (div_str b (name f)) (name f) → fs s' !! p = fs s !! p).
  { intros files tr Hf Hsame. cbv zeta. unfold copy2. run.
    set (dst := div_str b (name f)).
    set (target := match files !! dst with Some Dir => div_str dst (name f) | _ => dst end).
    assert (Ht : target = dst ∨ target = div_str dst (name f)).
    { unfold target. destruct (files !! dst) as [[?|]|]; auto. }
    destruct (decide (target = f)) as [Etf|Etf]; run; [by auto|].
    rewrite Hf. destruct nf as [c|]; run; [|by auto].
    destruct (files !! target) as [[c'|]|] eqn:Et; run; try by auto.
    - rewrite lookup_insert_ne by done. split; [done|]. split; [done|].
      split; [done|]. intros p H1 H2 H3.
      rewrite lookup_insert_ne by (destruct Ht; congruence). by apply Hsame.
    - rewrite lookup_insert_ne by done. split; [done|]. split; [done|].
      split; [done|]. intros p H1 H2 H3.
      rewrite lookup_insert_ne by (destruct Ht; congruence). by apply Hsame. }
  destruct (fs s !! b) as [[cb|]|] eqn:Ebb; run.
  - done.
  - destruct (Hcopy (fs s) ((trace s ++ [PathExists f]) ++ [VerifyPath (Some b)]))
      as (H1 & H2 & H3 & H4); [done|done|].
    split; [done|]. split; [done|]. split; [done|].
    intros b0 p [= <-]. apply H4.
  - assert (f ≠ b) by (intros ->; congruence).
    destruct (Hcopy (<[b:=Dir]> (fs s))
                ((trace s ++ [PathExists f]) ++ [VerifyPath (Some b)]))
      as (H1 & H2 & H3 & H4).
    { by rewrite lookup_insert_ne. }
    { intros p Hp. by rewrite lookup_insert_ne. }
    split; [done|]. split; [done|]. split; [done|].
    intros b0 p [= <-]. apply H4.
Qed.

(** X15.  Backing the same file up a second time in the same session
    succeeds and leaves every file as the first backup left it. *)
Theorem backup_twice (f b : Path) (c : Content) (s s1 : State Content) :
  backups_path s = Some b →
  fs s !! f = Some (File c) →
  fs s !! div_str b (name f) ≠ Some Dir →
  backup f s = (Ok tt, s1) →
  ∃ s2, backup f s1 = (Ok tt, s2) ∧ fs s2 = fs s1 ∧ backups_path s2 = Some b.
Proof.
  intros Hb Hf Hnd Hbk.
  destruct (backup_ok_inv f b c s s1 Hb Hf Hnd Hbk)
    as (Hdf & Hdb & Hfb & Hb1 & Hc1 & Hfs1 & Ht1).
  assert (Hf1 : fs s1 !! f = Some (File c)).
  { rewrite Hfs1, !lookup_insert_ne by done. done. }
  assert (Hd1 : fs s1 !! div_str b (name f) = Some (File c)).
  { rewrite Hfs1. apply lookup_insert_eq. }
  assert (Hr1 : fs s1 !! b = Some Dir).
  { rewrite Hfs1, lookup_insert_ne by done. apply lookup_insert_eq. }
  unfold backup, verify_path, copy2. run.
  repeat (first [rewrite Hf1 | rewrite Hb1 | rewrite Hr1 | rewrite Hd1]; run).
  destruct (decide (div_str b (name f) = f)); [done|]. run.
  repeat (first [rewrite Hf1 | rewrite Hb1 | rewrite Hr1 | rewrite Hd1]; run).
  eexists. split; [reflexivity|]. cbn. split; [by apply insert_id|done].
Qed.

(** X16.  The backup root is made on disk only when there is something to
    back up: with the root not there yet, it is a directory after [backup]
    exactly when the file to back up exists.  [initialize_backup] itself
    makes nothing. *)
Theorem backup_root_is_lazy (f b : Path) (s : State Content) :
  backups_path s = Some b →
  fs s !! b = None →
  fs (initialize_backup s).2 = fs s
  ∧ (fs (backup f s).2 !! b = Some Dir ↔ is_Some (fs s !! f))
  ∧ (fs s !! f = None → fs (backup f s).2 = fs s).
Proof.
  intros Hb Hn. split; [done|].
  unfold backup, verify_path, copy2. run.
  destruct (fs s !! f) as [nf|] eqn:Ef; run.
  2:{ rewrite Hn. split; [split; [done|by intros [? ?]]|done]. }
  rewrite Hb. run. rewrite Hn. run.
  split; [|done]. split; [eauto|intros _].
  assert (Hfb : f ≠ b) by (intros ->; congruence).
  set (dst := div_str b (name f)).
  set (files := <[b:=Dir]> (fs s)).
  set (target := match files !! dst with Some Dir => div_str dst (name f) | _ => dst end).
  destruct (decide (target = f)); run; [apply lookup_insert_eq|].
  destruct (files !! f) as [[c|]|]; run; try apply lookup_insert_eq.
  destruct (files !! target) as [[c'|]|] eqn:Et; run; try apply lookup_insert_eq.
  - rewrite lookup_insert_ne; [apply lookup_insert_eq|].
    intros ->. unfold files in Et. by rewrite lookup_insert_eq in Et.
  - rewrite lookup_insert_ne; [apply lookup_insert_eq|].
    intros ->. unfold files in Et. by rewrite lookup_insert_eq in Et.
Qed.

(** X17.  [restore] writes to the destination and to nothing else: with
    the destination not a directory, every other path, the backup copy
    among them, is as before, whatever the outcome; so are the
    configuration and the backup root. *)
Theorem restore_touches_only_the_destination (f : Path) (s : State Content) :
  fs s !! f ≠ Some Dir →
  let s' := (restore f s).2 in
  config s' = config s
  ∧ backups_path s' = backups_path s
  ∧ ∀ p, p ≠ f → fs s' !! p = fs s !! p.
Proof.
  intros Hnd. cbv zeta. unfold restore, copy2. run.
  destruct (fs s !! f) as [[c|]|] eqn:Ef; run; [|done|done].
  destruct (backups_path s) as [b|] eqn:Eb; run; [|done].
  rewrite Ef.
  destruct (decide (f = div_str b (name f))); run; [done|].
  destruct (fs s !! div_str b (name f)) as [[c'|]|]; run; [|done|done].
  rewrite Ef. run. split; [done|]. split; [done|].
  intros p Hp. by rewrite lookup_insert_ne.
Qed.

(** ** install_latest_version *)

Lemma move_contents_backups_path (src dst : Path) (s : State Content) :
  backups_path (move_contents src dst s).2 = backups_path s.
Proof.
  unfold move_contents. run.
  by destruct (move_contents_impl host src dst (config s, fs s)).
Qed.

Lemma install_latest_version_run (clean : bool) (s s2 s3 : State Content) :
  let s1 := (initialize_backup (Fire InitializeInstallation s).2).2 in
  let ini := d3dx_ini_path (config s1) in
  backup ini s1 = (Ok tt, s2) →
  move_contents (downloaded_asset_path host)
    (importer_path (Importer (config s2))) s2 = (Ok tt, s3) →
  install_latest_version clean s
  = (if overwrite_ini (Importer (config s3)) then (Ok tt, s3) else restore ini s3).
Proof.
  intros s1 ini Hbk Hmv. unfold install_latest_version.
  rewrite (bind_ok _ _ s (Fire InitializeInstallation s).2 tt) by reflexivity.
  rewrite (bind_ok _ _ (Fire InitializeInstallation s).2 s1 tt) by reflexivity.
  rewrite (bind_ok get_config _ s1 s1 (config s1)) by reflexivity.
  rewrite (bind_ok _ _ _ _ _ Hbk).
  rewrite (bind_ok get_config _ s2 s2 (config s2)) by reflexivity.
  rewrite (bind_ok _ _ _ _ _ Hmv).
  rewrite (bind_ok get_config _ s3 s3 (config s3)) by reflexivity.
  by destruct (overwrite_ini _).
Qed.

(** X18.  With [overwrite_ini] off, an install over a package that has a
    [d3dx.ini] keeps it: when the move leaves the backup copy alone and a
    [d3dx.ini] file is in place after it, the install returns and the file
    holds what it held before the install. *)
Theorem install_keeps_the_ini (clean : bool) (c c' : Content)
    (s s2 s3 : State Content) :
  let s1 := (initialize_backup (Fire InitializeInstallation s).2).2 in
  let ini := d3dx_ini_path (config s1) in
  let copy := div_str (div_str (App_Backups host)
                         (metadata_package_name host +:+ " " +:+ now s))
                (name ini) in
  fs s1 !! ini = Some (File c) →
  fs s1 !! copy ≠ Some Dir →
  backup ini s1 = (Ok tt, s2) →
  move_contents (downloaded_asset_path host)
    (importer_path (Importer (config s2))) s2 = (Ok tt, s3) →
  overwrite_ini (Importer (config s3)) = false →
  fs s3 !! copy = Some (File c) →
  fs s3 !! ini = Some (File c') →
  ∃ s4, install_latest_version clean s = (Ok tt, s4)
        ∧ fs s4 !! ini = Some (File c)
        ∧ ∀ p, p ≠ ini → fs s4 !! p = fs s3 !! p.
Proof.
  intros s1 ini copy Hf Hnd Hbk Hmv Hov Hcopy Hini.
  rewrite (install_latest_version_run clean s s2 s3 Hbk Hmv), Hov.
  assert (Hb1 : backups_path s1
                = Some (div_str (App_Backups host)
                          (metadata_package_name host +:+ " " +:+ now s))).
  { unfold s1. by rewrite Fire_run, initialize_backup_run. }
  destruct (backup_ok_inv ini _ c s1 s2 Hb1 Hf Hnd Hbk)
    as (Hdf & _ & _ & Hb2 & _ & _ & _).
  assert (Hb3 : backups_path s3 = backups_path s2).
  { pose proof (move_contents_backups_path (downloaded_asset_path host)
                  (importer_path (Importer (config s2))) s2) as E.
    by rewrite Hmv in E. }
  rewrite Hb2 in Hb3.
  change (d3dx_ini_path (config (initialize_backup
            (Fire InitializeInstallation s).2).2)) with ini.
  fold copy in Hdf.
  assert (Ecopy : div_str (div_str (App_Backups host)
                             (metadata_package_name host +:+ " " +:+ now s))
                    (name ini) = copy) by reflexivity.
  clearbody copy ini s1.
  unfold restore, copy2. run.
  repeat (first [rewrite Hini | rewrite Hb3 | rewrite Ecopy | rewrite Hcopy]; run).
  match goal with |- context [decide ?P] => destruct (decide P); [congruence|] end.
  run. repeat (first [rewrite Hini | rewrite Hb3 | rewrite Hcopy]; run).
  eexists. split; [reflexivity|]. cbn. split; [apply lookup_insert_eq|].
  intros p Hp. by rewrite lookup_insert_ne.
Qed.

(** X19.  With [overwrite_ini] off, a first install fails: when there was
    no [d3dx.ini] before and the move puts one in place, the restore finds
    no backup copy and the install raises a file-not-found error, after
    the move has been done. *)
Theorem first_install_without_overwrite_fails (clean : bool) (c' : Content)
    (s s3 : State Content) :
  let s1 := (initialize_backup (Fire InitializeInstallation s).2).2 in
  let ini := d3dx_ini_path (config s1) in
  let copy := div_str (div_str (App_Backups host)
                         (metadata_package_name host +:+ " " +:+ now s))
                (name ini) in
  fs s1 !! ini = None →
  move_contents (downloaded_asset_path host)
    (importer_path (Importer (config s1))) (logged [PathExists ini] s1) = (Ok tt, s3) →
  overwrite_ini (Importer (config s3)) = false →
  fs s3 !! ini = Some (File c') →
  fs s3 !! copy = None →
  install_latest_version clean s
  = (Raise (FileNotFoundError copy), logged [PathExists ini; Copy2 copy ini] s3).
Proof.
  intros s1 ini copy Hf Hmv Hov Hini Hcopy.
  assert (Hbk : backup ini s1 = (Ok tt, logged [PathExists ini] s1)).
  { unfold backup. run. by rewrite Hf. }
  rewrite (install_latest_version_run clean s _ s3 Hbk Hmv), Hov.
  assert (Hb3 : backups_path s3
                = Some (div_str (App_Backups host)
                          (metadata_package_name host +:+ " " +:+ now s))).
  { pose proof (move_contents_backups_path (downloaded_asset_path host)
                  (importer_path (Importer (config s1))) (logged [PathExists ini] s1))
      as E.
    rewrite Hmv in E. cbn in E. rewrite E. unfold s1.
    by rewrite Fire_run, initialize_backup_run. }
  assert (Hne : ini ≠ copy) by congruence.
  change (d3dx_ini_path (config (initialize_backup
            (Fire InitializeInstallation s).2).2)) with ini.
  assert (Ecopy : div_str (div_str (App_Backups host)
                             (metadata_package_name host +:+ " " +:+ now s))
                    (name ini) = copy) by reflexivity.
  clearbody copy ini s1. unfold restore, copy2. run.
  repeat (first [rewrite Hini | rewrite Hb3 | rewrite Ecopy | rewrite Hcopy]; run).
  match goal with |- context [decide ?P] => destruct (decide P); [congruence|] end.
  run. repeat (first [rewrite Hini | rewrite Hb3 | rewrite Hcopy]; run).
  unfold logged. by rewrite <- app_assoc, ?Hb3.
Qed.

(** X20.  An install fires the one event that announces it, reads the
    clock, queries, copies and moves files, and does nothing else: no
    dialog, no other event, no read or write of [d3dx.ini] through the INI
    document, no call of the game integration, no hand-over to the
    injector. *)
Theorem install_latest_version_effects (clean : bool) :
  emits install_effect (install_latest_version clean).
Proof.
  unfold install_latest_version, initialize_backup, backup, restore, move_contents,
    get_config, get_now, set_backups_path, get_backups_path, backups_div.
  emits_all.
Qed.

(** ** validate_package_files *)

(** X22.  The integrity check asks only whether [d3dx.ini] exists: with
    anything at that path, a directory included, it shows no dialog and
    requests nothing.  A directory there is found out by the INI update,
    which fails to open it; that error is what [start_game] raises. *)
Theorem integrity_check_is_existence_only (s : State Content) :
  let ini := d3dx_ini_path (config s) in
  let status := StatusUpdate "Updating d3dx.ini..." in
  is_Some (fs s !! ini) →
  validate_package_files s = (Ok tt, logged [PathExists ini] s)
  ∧ (fs s !! ini = Some Dir →
     dispatch host status (config s, fs s) = (config s, fs s) →
     start_game s
     = (Raise (PermissionError ini),
        logged [PathExists ini; Fired status; OpenRead ini] s)).
Proof.
  intros ini status [n Hn].
  assert (Hv : validate_package_files s = (Ok tt, logged [PathExists ini] s)).
  { unfold validate_package_files. run. fold ini. by rewrite Hn. }
  split; [done|]. intros Hd Hq.
  unfold start_game. rewrite (bind_ok _ _ _ _ _ Hv). apply bind_raise.
  rewrite update_d3dx_ini_after_status. rewrite Fire_run. cbn [snd logged config fs].
  fold status. rewrite Hq. cbn. fold ini. rewrite Hd.
  unfold logged. cbn. by rewrite <- !app_assoc.
Qed.

End BackupMoreFacts.

(** * The properties on a running package *)

(** A run is its result and the state it leaves. *)
Lemma run_result {Content A : Type} (m : M Content A) (s : State Content)
    (r : Result A) :
  (m s).1 = r → m s = (r, (m s).2).
Proof. destruct (m s) as [r' s']. cbn. by intros ->. Qed.

(** An equation between closed terms, settled by running both sides. *)
Ltac by_evaluation :=
  lazymatch goal with
  | |- @eq ?A ?a ?b => vm_cast_no_check (@eq_refl A b)
  end.

(** [x ≠ y], from the value [v] that [x] runs to. *)
Ltac differs v :=
  lazymatch goal with
  | |- ?x ≠ ?y =>
      let E := fresh "E" in
      assert (E : x = v) by by_evaluation; rewrite E; discriminate
  end.

(** C1, on the demo host: the game directory passes, after the two
    queries. *)
Lemma validate_game_path_checks_witness :
  is_absolute (Demo.PathOf "C:\Games\Wuthering Waves") = true
  ∧ fs Demo.installed !! Demo.PathOf "C:\Games\Wuthering Waves" = Some Dir
  ∧ validate_game_path (host := Demo.host Demo.quiet true)
      (OfStr "C:\Games\Wuthering Waves") Demo.installed
    = (Ok Demo.GameDir,
       logged [PathExists Demo.GameDir; PathIsDir Demo.GameDir] Demo.installed).
Proof.
  split; [reflexivity|]. split; [vm_compute; reflexivity|].
  apply (proj1 (validate_game_path_checks (host := Demo.host Demo.quiet true)
                  (OfStr "C:\Games\Wuthering Waves") Demo.installed));
    vm_compute; reflexivity.
Defined.

(** C2, counterexample: with [d3dx.ini] missing, the user accepting and
    subscribers that do nothing, [start_game] does not stop at the request:
    it announces the INI update and tries to open the file. *)
Lemma start_game_goes_on_after_request :
  fs Demo.damaged !! d3dx_ini_path (host := Demo.host Demo.quiet true)
                       (config Demo.damaged) = None
  ∧ ¬ stops_after_reinstall_request (Demo.host Demo.quiet true) Demo.impl Demo.damaged.
Proof.
  split; [vm_compute; reflexivity|].
  unfold stops_after_reinstall_request. vm_compute. discriminate.
Defined.

(** C2, on the demo host with a user who accepts. *)
Lemma start_game_missing_ini_witness :
  fs Demo.damaged !! Demo.IniPath = None
  ∧ start_game (host := Demo.host Demo.quiet true) (impl := Demo.impl) Demo.damaged
    = (Raise (FileNotFoundError Demo.IniPath),
       logged
         [PathExists Demo.IniPath;
          Called (ShowError true "Restore" "Cancel"
                    (damaged_message (config Demo.damaged) Demo.IniPath)) true;
          Fired (Update true true true ["WWMI"]);
          Fired (StatusUpdate "Updating d3dx.ini...");
          OpenRead Demo.IniPath]
         Demo.damaged).
Proof.
  split; [vm_compute; reflexivity|].
  pose proof (start_game_missing_ini (host := Demo.host Demo.quiet true)
                (impl := Demo.impl) Demo.damaged) as H.
  cbv zeta in H.
  destruct H as (_ & _ & H); [vm_compute; reflexivity|].
  destruct H as [_ H]; [vm_compute; reflexivity|].
  rewrite H; [vm_compute; reflexivity|vm_compute; reflexivity].
Defined.

(** With a reinstall that restores the file at once, the same launch goes
    all the way to the injector. *)
Example start_game_after_instant_reinstall :
  (start_game (host := Demo.host (Demo.reinstalls Demo.document) true)
     (impl := Demo.impl) Demo.damaged).1 = Ok tt
  ∧ last (trace (start_game (host := Demo.host (Demo.reinstalls Demo.document) true)
                   (impl := Demo.impl) Demo.damaged).2)
    = Some (Fired (StartAndInject Demo.GameExe)).
Proof. split; vm_compute; reflexivity. Qed.

(** C4, on the demo host: the configured folder is not absolute, the
    autodetected one is validated, its executable is found, it is written
    back, and the launch goes on. *)
Lemma start_game_autodetect_fallback_witness :
  ∃ s1 s2 s3,
    (validate_package_files (host := DemoMore.h);;
     update_d3dx_ini (host := DemoMore.h)) Demo.installed = (Ok tt, s1)
    ∧ configured_game_path (host := DemoMore.h) (impl := Demo.impl) s1
      = (Raise InvalidPath, s2)
    ∧ autodetected_game_path (host := DemoMore.h) (impl := Demo.impl) s2
      = (Ok (Demo.GameDir, Demo.GameExe), s3)
    ∧ trace s3 = trace s2 ++ [AutodetectGameFolder; PathExists Demo.GameDir;
                              PathIsDir Demo.GameDir;
                              ValidateGameExePath Demo.GameDir]
    ∧ game_folder (Importer (config s3)) = "C:\Games\Wuthering Waves"
    ∧ start_game (host := DemoMore.h) (impl := Demo.impl) Demo.installed
      = (initialize_game_launch (impl := Demo.impl) Demo.GameDir;;
         Fire (host := DemoMore.h) (StartAndInject Demo.GameExe)) s3.
Proof.
  pose proof (run_result (validate_package_files (host := DemoMore.h);;
                          update_d3dx_ini (host := DemoMore.h))
                Demo.installed (Ok tt) ltac:(by_evaluation)) as H1.
  lazymatch type of H1 with
  | _ = (_, ?s1) =>
      pose proof (run_result
                    (configured_game_path (host := DemoMore.h) (impl := Demo.impl))
                    s1 (Raise InvalidPath) ltac:(by_evaluation)) as H2
  end.
  lazymatch type of H2 with
  | _ = (_, ?s2) =>
      pose proof (run_result
                    (autodetected_game_path (host := DemoMore.h) (impl := Demo.impl))
                    s2 (Ok (Demo.GameDir, Demo.GameExe)) ltac:(by_evaluation)) as H3
  end.
  destruct (start_game_autodetect_fallback (host := DemoMore.h) (impl := Demo.impl)
              _ _ _ _ H1 H2) as (_ & Hok & _ & _).
  destruct (Hok _ _ _ H3) as (_ & _ & _ & _ & _ & _ & Ht & Hf & Hs).
  eexists _, _, _. split; [exact H1|]. split; [exact H2|]. split; [exact H3|].
  split; [exact Ht|]. split; [|exact Hs].
  rewrite Hf. reflexivity.
Defined.



(** C6, on the demo host: [d3dx.ini] backed up and restored. *)
Lemma backup_restore_round_trip_witness :
  let h := Demo.host Demo.quiet true in
  let s1 := (backup (host := h) Demo.IniPath Demo.in_session).2 in
  backups_path Demo.in_session = Some Demo.Backups
  ∧ fs Demo.in_session !! Demo.IniPath = Some (File Demo.document)
  ∧ fs Demo.in_session !! div_str (host := h) Demo.Backups (name Demo.IniPath) ≠ Some Dir
  ∧ backup (host := h) Demo.IniPath Demo.in_session = (Ok tt, s1)
  ∧ (∃ s2, restore (host := h) Demo.IniPath s1 = (Ok tt, s2)
           ∧ fs s2 !! Demo.IniPath = Some (File Demo.document)
           ∧ fs s2 = fs s1)
  ∧ fs (restore (host := h) Demo.IniPath (delete_file Demo.IniPath s1)).2
      !! Demo.IniPath = None.
Proof.
  intros h s1.
  assert (H1 : backups_path Demo.in_session = Some Demo.Backups) by reflexivity.
  assert (H2 : fs Demo.in_session !! Demo.IniPath = Some (File Demo.document))
    by (vm_compute; reflexivity).
  assert (H3 : fs Demo.in_session !! div_str (host := h) Demo.Backups (name Demo.IniPath)
               ≠ Some Dir) by (vm_compute; discriminate).
  assert (H4 : backup (host := h) Demo.IniPath Demo.in_session = (Ok tt, s1))
    by (vm_compute; reflexivity).
  split; [exact H1|]. split; [exact H2|]. split; [exact H3|]. split; [exact H4|].
  destruct (backup_restore_round_trip (host := h) _ _ _ _ _ H1 H2 H3 H4)
    as [Hthere (_ & Hgone & _)].
  split; [exact Hthere|exact Hgone].
Defined.

(** C7, on the demo host: an install over an installed package, with
    [overwrite_ini] off. *)
Lemma install_latest_version_sequence_witness :
  let h := Demo.host Demo.quiet true in
  let s0 := (Fire (host := h) InitializeInstallation Demo.downloaded).2 in
  let s1 := (initialize_backup (host := h) s0).2 in
  let s2 := (backup (host := h) Demo.IniPath s1).2 in
  let s3 := (move_contents (host := h) Demo.Downloads
               (importer_path (host := h) (Importer (config s2))) s2).2 in
  backup (host := h) (d3dx_ini_path (host := h) (config s1)) s1 = (Ok tt, s2)
  ∧ move_contents (host := h) (downloaded_asset_path h)
      (importer_path (host := h) (Importer (config s2))) s2 = (Ok tt, s3)
  ∧ install_latest_version (host := h) true Demo.downloaded
    = restore (host := h) Demo.IniPath s3
  ∧ fs (install_latest_version (host := h) true Demo.downloaded).2 !! Demo.IniPath
    = Some (File Demo.document).
Proof.
  intros h s0 s1 s2 s3.
  assert (H1 : backup (host := h) (d3dx_ini_path (host := h) (config s1)) s1
               = (Ok tt, s2)) by (vm_compute; reflexivity).
  assert (H2 : move_contents (host := h) (downloaded_asset_path h)
                 (importer_path (host := h) (Importer (config s2))) s2
               = (Ok tt, s3)) by (vm_compute; reflexivity).
  split; [exact H1|]. split; [exact H2|].
  destruct (install_latest_version_sequence (host := h) true Demo.downloaded s2 s3
              H1 H2) as (_ & _ & _ & _ & Hrun & _).
  split; [rewrite Hrun; vm_compute; reflexivity|].
  rewrite Hrun. vm_compute. reflexivity.
Defined.

(** C8, on the demo host: a restore in a session that never backed the
    file up. *)
Lemma restore_without_backup_copy_witness :
  let h := Demo.host Demo.quiet true in
  backups_path Demo.in_session = Some Demo.Backups
  ∧ fs Demo.in_session !! Demo.IniPath = Some (File Demo.document)
  ∧ fs Demo.in_session !! div_str (host := h) Demo.Backups (name Demo.IniPath) = None
  ∧ (restore (host := h) Demo.IniPath Demo.in_session).1
    = Raise (FileNotFoundError (div_str (host := h) Demo.Backups (name Demo.IniPath)))
  ∧ fs (restore (host := h) Demo.IniPath Demo.in_session).2 = fs Demo.in_session.
Proof.
  intros h.
  assert (H1 : backups_path Demo.in_session = Some Demo.Backups) by reflexivity.
  assert (H2 : fs Demo.in_session !! Demo.IniPath = Some (File Demo.document))
    by (vm_compute; reflexivity).
  assert (H3 : fs Demo.in_session
                 !! div_str (host := h) Demo.Backups (name Demo.IniPath) = None)
    by (vm_compute; reflexivity).
  split; [exact H1|]. split; [exact H2|]. split; [exact H3|].
  destruct (restore_without_backup_copy (host := h) _ _ _ _ H1 H2 H3) as [Hr Hfs].
  split; [by rewrite Hr|exact Hfs].
Defined.

(** C10, on the demo host: a new package asked to back up its
    [d3dx.ini]. *)
Lemma backup_before_initialize_backup_witness :
  let h := Demo.host Demo.quiet true in
  backups_path Demo.installed = None
  ∧ is_Some (fs Demo.installed !! Demo.IniPath)
  ∧ ∃ e, backup (host := h) Demo.IniPath Demo.installed
         = (Raise e, logged [PathExists Demo.IniPath; VerifyPath None] Demo.installed).
Proof.
  intros h.
  assert (H1 : backups_path Demo.installed = None) by reflexivity.
  assert (H2 : is_Some (fs Demo.installed !! Demo.IniPath))
    by (exists (File Demo.document); vm_compute; reflexivity).
  split; [exact H1|]. split; [exact H2|].
  destruct (backup_before_initialize_backup (host := h)) as (_ & H & _).
  exact (proj1 (proj2 (H Demo.installed Demo.IniPath H1) H2)).
Defined.

(** * The further properties on a running package *)

(** X2, on the demo host: [WWMI] and [c:] resolve under the root [C:\XXMI],
    [D:] does not. *)
Lemma importer_path_absolute_witness :
  is_absolute (App_Root DemoMore.h) = true
  ∧ is_absolute (importer_path (host := DemoMore.h) (Importer (config Demo.installed)))
    = true
  ∧ importer_path (host := DemoMore.h) DemoMore.other_drive = mkPath "D:" "" []
  ∧ importer_path (host := DemoMore.h) DemoMore.same_drive = Demo.Root.
Proof.
  assert (H : is_absolute (App_Root DemoMore.h) = true) by reflexivity.
  split; [exact H|]. split; [|split].
  - destruct (importer_path_absolute (host := DemoMore.h)
                (Importer (config Demo.installed)) H) as (Habs & _ & _).
    apply Habs. intros (_ & Hd & _). by apply Hd.
  - destruct (importer_path_absolute (host := DemoMore.h) DemoMore.other_drive H)
      as (_ & Hother & _).
    rewrite Hother; [reflexivity|].
    split; [reflexivity|]. split; vm_compute; discriminate.
  - destruct (importer_path_absolute (host := DemoMore.h) DemoMore.same_drive H)
      as (_ & _ & Hsame).
    rewrite Hsame; [reflexivity|reflexivity|right; reflexivity].
Defined.

(** X4, on the demo table: the integer 1 selects what [True] selects. *)
Lemma bool_setting_truthiness_witness :
  truthy (SInt 1) = truthy (SBool true)
  ∧ set_default_ini_values (config Demo.installed) Demo.document "debug_logging"
      Bool (SInt 1)
    = set_default_ini_values (config Demo.installed) Demo.document "debug_logging"
        Bool (SBool true).
Proof.
  split; [reflexivity|].
  apply (bool_setting_truthiness (config Demo.installed) Demo.document
           "debug_logging" (SInt 1) (SBool true)).
  reflexivity.
Defined.

(** X5, on the demo host. *)
Lemma update_d3dx_ini_needs_all_groups_witness :
  ∃ s', update_d3dx_ini (host := DemoMore.h) Demo.installed = (Ok tt, s')
        ∧ Forall (λ n, is_Some (dict_get n (d3dx_ini (Importer (config s')))))
            setting_groups.
Proof.
  pose proof (run_result (update_d3dx_ini (host := DemoMore.h)) Demo.installed
                (Ok tt) ltac:(by_evaluation)) as H.
  eexists. split; [exact H|].
  exact (update_d3dx_ini_needs_all_groups (host := DemoMore.h) _ _ H).
Defined.

(** X6, on the demo host with a table that lacks [core]. *)
Lemma update_d3dx_ini_failure_writes_nothing_witness :
  ∃ s', update_d3dx_ini (host := DemoMore.h) DemoMore.incomplete
        = (Raise (MissingSetting "core"), s')
        ∧ fs s' = fs DemoMore.incomplete.
Proof.
  pose proof (run_result (update_d3dx_ini (host := DemoMore.h)) DemoMore.incomplete
                (Raise (MissingSetting "core")) ltac:(by_evaluation)) as H.
  eexists. split; [exact H|].
  exact (proj1 (update_d3dx_ini_failure_writes_nothing (host := DemoMore.h) _ _ _ H)).
Defined.

(** X9 and X10, on the demo host with [d3dx.ini] missing and the user
    accepting: the exception is the one of the INI update. *)
Lemma start_game_raises_only_witness :
  ∃ s', start_game (host := DemoMore.h) (impl := Demo.impl) Demo.damaged
        = (Raise (FileNotFoundError Demo.IniPath), s')
        ∧ (validate_package_files (host := DemoMore.h);;
           update_d3dx_ini (host := DemoMore.h)) Demo.damaged
          = (Raise (FileNotFoundError Demo.IniPath), s').
Proof.
  pose proof (run_result (start_game (host := DemoMore.h) (impl := Demo.impl))
                Demo.damaged (Raise (FileNotFoundError Demo.IniPath))
                ltac:(by_evaluation)) as H.
  eexists. split; [exact H|].
  destruct (start_game_raises_only (host := DemoMore.h) (impl := Demo.impl) _ _ _ H)
    as [Hpre|(s1 & s2 & p & exe & Hpre & _)]; [exact Hpre|].
  exfalso.
  pose proof (run_result (validate_package_files (host := DemoMore.h);;
                          update_d3dx_ini (host := DemoMore.h))
                Demo.damaged (Raise (FileNotFoundError Demo.IniPath))
                ltac:(by_evaluation)) as E.
  rewrite Hpre in E. discriminate E.
Defined.

Lemma start_game_early_failure_witness :
  ∃ s', (validate_package_files (host := DemoMore.h);;
         update_d3dx_ini (host := DemoMore.h)) Demo.damaged
        = (Raise (FileNotFoundError Demo.IniPath), s')
        ∧ start_game (host := DemoMore.h) (impl := Demo.impl) Demo.damaged
          = (Raise (FileNotFoundError Demo.IniPath), s').
Proof.
  pose proof (run_result (validate_package_files (host := DemoMore.h);;
                          update_d3dx_ini (host := DemoMore.h))
                Demo.damaged (Raise (FileNotFoundError Demo.IniPath))
                ltac:(by_evaluation)) as H.
  eexists. split; [exact H|].
  exact (proj1 (start_game_early_failure (host := DemoMore.h) (impl := Demo.impl)
                  _ _ _ H)).
Defined.

(** X11, on the demo host with the right folder configured. *)
Lemma start_game_configured_folder_witness :
  ∃ s1 s2,
    (validate_package_files (host := DemoMore.h);;
     update_d3dx_ini (host := DemoMore.h)) DemoMore.configured = (Ok tt, s1)
    ∧ configured_game_path (host := DemoMore.h) (impl := Demo.impl) s1
      = (Ok (Demo.GameDir, Demo.GameExe), s2)
    ∧ start_game (host := DemoMore.h) (impl := Demo.impl) DemoMore.configured
      = (initialize_game_launch (impl := Demo.impl) Demo.GameDir;;
         Fire (host := DemoMore.h) (StartAndInject Demo.GameExe)) s2.
Proof.
  pose proof (run_result (validate_package_files (host := DemoMore.h);;
                          update_d3dx_ini (host := DemoMore.h))
                DemoMore.configured (Ok tt) ltac:(by_evaluation)) as H1.
  pose proof (run_result
                (configured_game_path (host := DemoMore.h) (impl := Demo.impl))
                ((validate_package_files (host := DemoMore.h);;
                  update_d3dx_ini (host := DemoMore.h)) DemoMore.configured).2
                (Ok (Demo.GameDir, Demo.GameExe)) ltac:(by_evaluation)) as H2.
  eexists _, _. split; [exact H1|]. split; [exact H2|].
  exact (proj2 (proj2 (start_game_configured_folder (host := DemoMore.h)
                         (impl := Demo.impl) _ _ _ _ _ H1 H2))).
Defined.

(** X12, on the demo host with the base class in place of the
    integration. *)
Lemma start_game_base_class_witness :
  ((validate_package_files (host := DemoMore.h);;
    update_d3dx_ini (host := DemoMore.h)) DemoMore.configured).1 = Ok tt
  ∧ (start_game (host := DemoMore.h) (impl := base_integration) DemoMore.configured).1
    = Ok tt
  ∧ last (trace (start_game (host := DemoMore.h) (impl := base_integration)
                   DemoMore.configured).2)
    = Some (Fired OpenSettings).
Proof.
  assert (H0 : ((validate_package_files (host := DemoMore.h);;
                 update_d3dx_ini (host := DemoMore.h)) DemoMore.configured).1
               = Ok tt) by by_evaluation.
  split; [exact H0|].
  destruct (start_game_base_class (host := DemoMore.h) _ _ (run_result _ _ _ H0))
    as (s2 & t & Hrun & _ & Ht).
  rewrite Hrun. split; [reflexivity|].
  change (last (trace s2) = Some (Fired OpenSettings)).
  rewrite Ht, !last_app. reflexivity.
Defined.

(** X13, on the demo host, with nothing inherited. *)
Lemma load_never_raises_witness :
  mret (M := M Demo.Content) tt Demo.installed = (Ok tt, Demo.installed)
  ∧ ∃ s2, load (host := DemoMore.h) (impl := Demo.impl) (mret tt) Demo.installed
          = (Ok tt, s2)
          ∧ game_folder (Importer (config s2)) = "C:\Games\Wuthering Waves".
Proof.
  assert (H : mret (M := M Demo.Content) tt Demo.installed = (Ok tt, Demo.installed))
    by reflexivity.
  split; [exact H|].
  destruct (load_never_raises (host := DemoMore.h) (impl := Demo.impl)
              (mret tt) _ _ H) as (s2 & t & Hrun & _ & _ & _).
  exists s2. split; [exact Hrun|].
  assert (E : game_folder
                (Importer
                   (config (load (host := DemoMore.h) (impl := Demo.impl) (mret tt)
                              Demo.installed).2))
              = "C:\Games\Wuthering Waves") by by_evaluation.
  rewrite Hrun in E. exact E.
Defined.

(** X15, X16 and X17, on the demo host with a session open. *)
Lemma backup_twice_witness :
  backups_path Demo.in_session = Some Demo.Backups
  ∧ fs Demo.in_session !! Demo.IniPath = Some (File Demo.document)
  ∧ fs Demo.in_session !! div_str (host := DemoMore.h) Demo.Backups (name Demo.IniPath)
    ≠ Some Dir
  ∧ ∃ s1 s2,
      backup (host := DemoMore.h) Demo.IniPath Demo.in_session = (Ok tt, s1)
      ∧ backup (host := DemoMore.h) Demo.IniPath s1 = (Ok tt, s2)
      ∧ fs s2 = fs s1 ∧ backups_path s2 = Some Demo.Backups.
Proof.
  assert (H1 : backups_path Demo.in_session = Some Demo.Backups) by reflexivity.
  assert (H2 : fs Demo.in_session !! Demo.IniPath = Some (File Demo.document))
    by by_evaluation.
  assert (H3 : fs Demo.in_session
                 !! div_str (host := DemoMore.h) Demo.Backups (name Demo.IniPath)
               ≠ Some Dir) by differs (@None (Node Demo.Content)).
  pose proof (run_result (backup (host := DemoMore.h) Demo.IniPath) Demo.in_session
                (Ok tt) ltac:(by_evaluation)) as H4.
  split; [exact H1|]. split; [exact H2|]. split; [exact H3|].
  destruct (backup_twice (host := DemoMore.h) _ _ _ _ _ H1 H2 H3 H4)
    as (s2 & Hrun & Hfs & Hb).
  eexists _, s2. split; [exact H4|]. split; [exact Hrun|]. split; [exact Hfs|exact Hb].
Defined.

Lemma backup_root_is_lazy_witness :
  backups_path Demo.in_session = Some Demo.Backups
  ∧ fs Demo.in_session !! Demo.Backups = None
  ∧ fs (backup (host := DemoMore.h) Demo.IniPath Demo.in_session).2 !! Demo.Backups
    = Some Dir
  ∧ fs (backup (host := DemoMore.h) Demo.GameExe (delete_file Demo.GameExe Demo.in_session)).2
    = fs (delete_file Demo.GameExe Demo.in_session).
Proof.
  assert (H1 : backups_path Demo.in_session = Some Demo.Backups) by reflexivity.
  assert (H2 : fs Demo.in_session !! Demo.Backups = None) by by_evaluation.
  split; [exact H1|]. split; [exact H2|]. split.
  - apply (proj1 (proj2 (backup_root_is_lazy (host := DemoMore.h) Demo.IniPath _ _ H1 H2))).
    exists (File Demo.document). by_evaluation.
  - apply (proj2 (proj2 (backup_root_is_lazy (host := DemoMore.h) Demo.GameExe
                           Demo.Backups (delete_file Demo.GameExe Demo.in_session)
                           H1 ltac:(by_evaluation)))).
    by_evaluation.
Defined.

Lemma restore_touches_only_the_destination_witness :
  fs Demo.in_session !! Demo.IniPath ≠ Some Dir
  ∧ fs (restore (host := DemoMore.h) Demo.IniPath Demo.in_session).2 !! Demo.GameExe
    = fs Demo.in_session !! Demo.GameExe.
Proof.
  assert (H : fs Demo.in_session !! Demo.IniPath ≠ Some Dir)
    by differs (Some (File Demo.document)).
  split; [exact H|].
  apply (proj2 (proj2 (restore_touches_only_the_destination (host := DemoMore.h)
                         Demo.IniPath Demo.in_session H))).
  vm_compute. discriminate.
Defined.

(** X18, on the demo host: the installed [d3dx.ini] survives the
    download, which holds another one. *)
Lemma install_keeps_the_ini_witness :
  fs Demo.downloaded !! Demo.IniPath = Some (File Demo.document)
  ∧ ∃ s4, install_latest_version (host := DemoMore.h) true Demo.downloaded = (Ok tt, s4)
          ∧ fs s4 !! Demo.IniPath = Some (File Demo.document).
Proof.
  split; [by_evaluation|].
  destruct (install_keeps_the_ini (host := DemoMore.h) true Demo.document
              Demo.fresh_document Demo.downloaded _ _
              ltac:(by_evaluation)
              ltac:(differs (@None (Node Demo.Content)))
              (run_result _ _ (Ok tt) ltac:(by_evaluation))
              (run_result _ _ (Ok tt) ltac:(by_evaluation))
              ltac:(by_evaluation) ltac:(by_evaluation) ltac:(by_evaluation))
    as (s4 & Hrun & Hf & _).
  exists s4. split; [exact Hrun|].
  assert (E : d3dx_ini_path (host := DemoMore.h)
                (config (initialize_backup (host := DemoMore.h)
                           (Fire (host := DemoMore.h) InitializeInstallation
                              Demo.downloaded).2).2)
              = Demo.IniPath) by by_evaluation.
  rewrite E in Hf. exact Hf.
Defined.

(** X19, on the demo host: a first install with [overwrite_ini] off. *)
Lemma first_install_without_overwrite_fails_witness :
  fs DemoMore.first_install !! Demo.IniPath = None
  ∧ (install_latest_version (host := DemoMore.h) true DemoMore.first_install).1
    = Raise (FileNotFoundError
               (mkPath "C:" "\" ["XXMI"; "Backups"; "WWMI 2024-05-01 12-00-00";
                                 "d3dx.ini"]))
  ∧ fs (install_latest_version (host := DemoMore.h) true DemoMore.first_install).2
      !! Demo.IniPath = Some (File Demo.fresh_document).
Proof.
  split; [by_evaluation|].
  rewrite (first_install_without_overwrite_fails (host := DemoMore.h) true
             Demo.fresh_document DemoMore.first_install _
             ltac:(by_evaluation)
             (run_result _ _ (Ok tt) ltac:(by_evaluation))
             ltac:(by_evaluation) ltac:(by_evaluation) ltac:(by_evaluation)).
  split; by_evaluation.
Defined.

(** X22, on the demo host. *)
Lemma integrity_check_is_existence_only_witness :
  is_Some (fs Demo.installed !! Demo.IniPath)
  ∧ validate_package_files (host := DemoMore.h) Demo.installed
    = (Ok tt, logged [PathExists Demo.IniPath] Demo.installed).
Proof.
  assert (H : is_Some (fs Demo.installed
                         !! d3dx_ini_path (host := DemoMore.h) (config Demo.installed)))
    by (exists (File Demo.document); by_evaluation).
  split; [exact H|].
  exact (proj1 (integrity_check_is_existence_only (host := DemoMore.h)
                  (impl := Demo.impl) Demo.installed H)).
Defined.
